(** * Keras-Addon: the spectral convolution layer [BaseSpectralConv]

    A shallow embedding of
    [src/keras_addon/layers/fno/base_spectral_conv.py] and the properties
    of its constructor, [build], the layout transposes, [rfft_shift],
    [call] (both backends), the manual backward pass,
    [compute_output_shape] and the configuration round trip.

    Python integers are [Z], tensor extents are [nat], Python exceptions
    are values of [exn] threaded through the [result] monad, dictionaries
    are [gmap string _], and tensors are a shape together with an index
    function (the semantics the array operations of [keras.ops] have,
    independent of any memory layout). The global state of Keras the
    constructor reads and writes (the names its registries resolve, the
    automatic names handed out) is passed explicitly. *)

From Stdlib Require Import ZArith QArith List Lia Bool String Ascii.
From stdpp Require Import gmap strings list pretty.

Open Scope string_scope.
Open Scope list_scope.
Open Scope Z_scope.

(** ** Python values, exceptions and the error monad *)

Module Py.

(** The exceptions met in the layer. [BackendError op] stands for the
    exception the active backend raises inside its implementation of the
    tensor operation [op] when the operands do not fit: its class is the
    backend's own ([InvalidArgumentError] with tensorflow, [TypeError] or
    [ValueError] with jax), so it says which operation failed and nothing
    about the class. *)
Inductive exn :=
| ValueError (msg : string)
| NotImplementedError (msg : string)
| KeyError (key : string)
| AttributeError (attr : string)
| TypeError (msg : string)
| IndexError (msg : string)
| NameError (var : string)
| BackendError (op : string).

Inductive result (A : Type) :=
| Ok (a : A)
| Raise (e : exn).

Arguments Ok {A} a.
Arguments Raise {A} e.

#[global] Instance result_bind : MBind result :=
  fun A B f m => match m with Ok a => f a | Raise e => Raise e end.
#[global] Instance result_ret : MRet result := fun A a => Ok a.
#[global] Instance result_fmap : FMap result :=
  fun A B f m => match m with Ok a => Ok (f a) | Raise e => Raise e end.

Definition is_ok {A} (r : result A) : bool :=
  match r with Ok _ => true | Raise _ => false end.

Definition is_value_error {A} (r : result A) : bool :=
  match r with Raise (ValueError _) => true | _ => false end.

Definition is_not_implemented {A} (r : result A) : bool :=
  match r with Raise (NotImplementedError _) => true | _ => false end.

(** [for x in xs: ...] with a body that may raise. *)
Fixpoint mapM_result {A B} (f : A -> result B) (xs : list A) : result (list B) :=
  match xs with
  | [] => Ok []
  | x :: xs' => y ← f x; ys ← mapM_result f xs'; Ok (y :: ys)
  end.

(** Objects that [==] can be applied to in the layer: strings and the
    function object [keras.src.backend.config.backend]. A function object
    is equal to itself only; it is never equal to a string. *)
Inductive pyval :=
| PyStr (s : string)
| PyFunction (qualname : string).

Definition py_eq (a b : pyval) : bool :=
  match a, b with
  | PyStr s, PyStr t => bool_decide (s = t)
  | PyFunction f, PyFunction g => bool_decide (f = g)
  | _, _ => false
  end.

(** [all(xs)] on a tuple of integers: every entry is truthy (non-zero). *)
Definition all_truthy (xs : list Z) : bool := forallb (fun v => negb (v =? 0)) xs.

(** Lexicographic [<] on pairs of integers, as Python compares tuples. *)
Definition tuple_lt (x y : Z * Z) : bool :=
  (x.1 <? y.1) || ((x.1 =? y.1) && (x.2 <? y.2)).

(** [l[-1]] *)
Definition last_item {A} (l : list A) : result A :=
  match last l with
  | Some a => Ok a
  | None => Raise (IndexError "list index out of range")
  end.

(** [l.pop(-1)]: the last item and the list without it. *)
Definition pop_last {A} (l : list A) : result (A * list A) :=
  match last l with
  | Some a => Ok (a, removelast l)
  | None => Raise (IndexError "pop from empty list")
  end.

(** [l.pop(i)] for a non-negative [i]. *)
Definition pop_at {A} (i : nat) (l : list A) : result (A * list A) :=
  match l !! i with
  | Some a => Ok (a, take i l ++ drop (S i) l)
  | None => Raise (IndexError "pop index out of range")
  end.

(** [l.insert(i, v)] for a non-negative [i] (appends when [i] is past the end). *)
Definition insert_at {A} (i : nat) (v : A) (l : list A) : list A :=
  take i l ++ v :: drop i l.

(** [str.lower()] on ASCII. *)
Definition lower_ascii (c : ascii) : ascii :=
  let n := nat_of_ascii c in
  if ((65 <=? n) && (n <=? 90))%nat then ascii_of_nat (n + 32) else c.

Fixpoint lower (s : string) : string :=
  match s with
  | EmptyString => EmptyString
  | String c s' => String (lower_ascii c) (lower s')
  end.

End Py.
Import Py.

(** ** The helpers of Keras the layer calls *)

Module Keras.

(** The [modes] argument: one integer, or a sequence of integers. *)
Inductive modes_arg :=
| ModesInt (v : Z)
| ModesSeq (vs : list Z).

(** [keras.src.utils.argument_validation.standardize_tuple(value, n, name)]
    with its default [allow_zero=False]: an integer is repeated [n] times,
    a sequence must have [n] entries, and every entry must satisfy
    [value > 0]; anything else is a [ValueError]. *)
Definition standardize_tuple (value : modes_arg) (n : nat) (name : string)
  : result (list Z) :=
  value_tuple ← match value with
                | ModesInt v => Ok (replicate n v)
                | ModesSeq vs =>
                    if bool_decide (length vs = n) then Ok vs
                    else Raise (ValueError ("The `" +:+ name +:+ "` argument must be a tuple of "
                                            +:+ pretty n +:+ " integers."))
                end;
  if forallb (fun v => 0 <? v) value_tuple then Ok value_tuple
  else Raise (ValueError ("The `" +:+ name +:+ "` argument has values that do not satisfy `value > 0`")).

(** [keras.src.backend.standardize_data_format]: lower-cases the name and
    accepts the two layouts only. *)
Definition standardize_data_format (data_format : string) : result string :=
  let data_format := lower data_format in
  if bool_decide (data_format = "channels_first") || bool_decide (data_format = "channels_last")
  then Ok data_format
  else Raise (ValueError "The `data_format` argument must be one of {'channels_first', 'channels_last'}.").

(** Initializers, regularizers and constraints are opaque objects for the
    layer. *)
Inductive kobject := KObject (class_name : string).

(** Values stored in a layer configuration or passed as an identifier. *)
Inductive cfg_value :=
| CNone
| CInt (v : Z)
| CBool (b : bool)
| CStr (s : string)
| CTuple (vs : list Z)
| CSerialized (class_name : string)
| CObject (o : kobject).

(** The three registries of Keras the constructor consults. *)
Inductive kind := Initializer | Regularizer | Constraint.

Definition kind_name (k : kind) : string :=
  match k with
  | Initializer => "initializer"
  | Regularizer => "regularizer"
  | Constraint => "constraint"
  end.

(** The part of the global state of Keras the constructor reads and
    writes: the names every registry resolves (the built-in ones and the
    custom objects registered so far), and the table [object_name_uids] that
    counts the automatic names handed out. *)
Record state := {
  known : kind -> string -> bool;
  object_name_uids : gmap string nat
}.

(** The built-in names of Keras in snake case. *)
Definition builtin (k : kind) : list string :=
  match k with
  | Initializer =>
      ["constant"; "glorot_normal"; "glorot_uniform"; "he_normal"; "he_uniform"; "identity";
       "lecun_normal"; "lecun_uniform"; "ones"; "orthogonal"; "random_normal";
       "random_uniform"; "truncated_normal"; "variance_scaling"; "zeros"]
  | Regularizer => ["l1"; "l2"; "l1_l2"; "orthogonal_regularizer"]
  | Constraint => ["max_norm"; "min_max_norm"; "non_neg"; "unit_norm"]
  end.

(** A state of Keras before any layer was named: it resolves the snake-case
    names of the built-in classes (Keras resolves their class names and a
    few aliases as well; no example below uses them) and no custom object. *)
Definition initial : state :=
  {| known := fun k s => bool_decide (s ∈ builtin k); object_name_uids := ∅ |}.

(** [initializers.get], [regularizers.get], [constraints.get]: [None]
    stays [None], an object is returned as it is, a name is looked up in
    the registry and a serialized configuration (what [serialize] returned
    for an object) is resolved to the object; a name the registry does not
    have, and anything else, cannot be interpreted. *)
Definition get (g : state) (k : kind) (identifier : cfg_value) : result (option kobject) :=
  match identifier with
  | CNone => Ok None
  | CObject o => Ok (Some o)
  | CStr s =>
      if known g k s then Ok (Some (KObject s))
      else Raise (ValueError ("Could not interpret " +:+ kind_name k +:+ " identifier: " +:+ s))
  | CSerialized c => Ok (Some (KObject c))
  | _ => Raise (ValueError ("Could not interpret " +:+ kind_name k +:+ " identifier."))
  end.

(** [keras.src.utils.naming.uniquify]: the first object gets the plain
    name, the later ones the name with the count appended. *)
Definition uniquify (name : string) (g : state) : string * state :=
  (match object_name_uids g !! name with
   | Some n => name +:+ "_" +:+ pretty n
   | None => name
   end,
   {| known := known g;
      object_name_uids :=
        <[name := S (default 0%nat (object_name_uids g !! name))]> (object_name_uids g) |}).

(** [Layer.__init__(name=name)] for an object of the class with the
    snake-case name [class_name]: without a name the layer gets an automatic
    one; a name that is given must not contain ["/"]. *)
Definition layer_init (class_name : string) (name : option string) (g : state)
  : result (string * state) :=
  match name with
  | None => Ok (uniquify class_name g)
  | Some n =>
      if bool_decide ("/"%char ∈ list_ascii_of_string n)
      then Raise (ValueError "Argument `name` must be a string and cannot contain character `/`.")
      else Ok (n, g)
  end.

(** [initializers.serialize] and its siblings. *)
Definition serialize (o : option kobject) : cfg_value :=
  match o with
  | Some (KObject c) => CSerialized c
  | None => CNone
  end.

(** [initializers.deserialize] and its siblings. *)
Definition deserialize (c : cfg_value) : result (option kobject) :=
  match c with
  | CNone => Ok None
  | CSerialized c => Ok (Some (KObject c))
  | _ => Raise (ValueError "Could not interpret the serialized object.")
  end.

(** [Layer.add_weight(shape=...)]: a variable needs a fully defined shape
    without negative extents. *)
Definition add_weight (shape : list (option Z)) : result (list nat) :=
  mapM_result (fun d => match d with
                        | Some v => if 0 <=? v then Ok (Z.to_nat v)
                                    else Raise (ValueError "Negative dimensions are not allowed.")
                        | None => Raise (ValueError "Shapes used to initialize variables must be fully-defined.")
                        end) shape.

(** [Layer.get_config()] of the base class. *)
Definition base_get_config (name : string) : gmap string cfg_value :=
  <["name" := CStr name]> (<["trainable" := CBool true]> (<["dtype" := CStr "float32"]> ∅)).

End Keras.
Import Keras.

(** Modelled from the spec: the module [keras_addon.ops.fft] is imported by
    the constructor but is not among the sources. The layer is specified
    for ranks 1, 2 and 3, so the module exports the six transforms below,
    and [getattr] of any other name is an [AttributeError]. *)
Definition fft_module_exports : list string :=
  ["rfft"; "rfft2"; "rfft3"; "irfft"; "irfft2"; "irfft3"].

Definition getattr_fft (attr : string) : result string :=
  if bool_decide (attr ∈ fft_module_exports) then Ok attr
  else Raise (AttributeError attr).

(** ** The layer and its constructor *)

Record init_args := {
  arg_rank : nat;
  arg_filters : option Z;
  arg_modes : modes_arg;
  arg_data_format : string;
  arg_use_bias : bool;
  arg_kernel_initializer : cfg_value;
  arg_bias_initializer : cfg_value;
  arg_kernel_constraint : cfg_value;
  arg_bias_constraint : cfg_value;
  arg_kernel_regularizer : cfg_value;
  arg_bias_regularizer : cfg_value;
  arg_name : option string
}.

(** The defaults of the signature of [__init__]. *)
Definition default_args (rank : nat) (filters : option Z) (modes : modes_arg) : init_args :=
  {| arg_rank := rank; arg_filters := filters; arg_modes := modes;
     arg_data_format := "channels_last"; arg_use_bias := true;
     arg_kernel_initializer := CStr "he_normal"; arg_bias_initializer := CStr "zeros";
     arg_kernel_constraint := CNone; arg_bias_constraint := CNone;
     arg_kernel_regularizer := CNone; arg_bias_regularizer := CNone;
     arg_name := None |}.

Record BaseSpectralConv := {
  name : string;
  rank : nat;
  filters : option Z;
  modes : list Z;
  use_bias : bool;
  kernel_initializer : option kobject;
  bias_initializer : option kobject;
  kernel_regularizer : option kobject;
  bias_regularizer : option kobject;
  kernel_constraint : option kobject;
  bias_constraint : option kobject;
  data_format : string;
  rfft_fn_name : string;
  irfft_fn_name : string
}.

(** The check of lines 49-53. *)
Definition check_filters (filters : option Z) : result unit :=
  match filters with
  | Some f => if f <=? 0
              then Raise (ValueError "Invalid value for argument `filters`. Expected a strictly positive value.")
              else Ok tt
  | None => Ok tt
  end.

(** The check of lines 55-59. *)
Definition check_modes (modes : list Z) : result unit :=
  if negb (all_truthy modes)
  then Raise (ValueError "The argument `modes` cannot contain 0.")
  else Ok tt.

(** The check of lines 61-65. *)
Definition check_data_format (data_format : string) : result unit :=
  if bool_decide (data_format = "channels_first")
  then Raise (NotImplementedError "Data format 'channels_first' is currently not supported.")
  else Ok tt.

(** [__init__], run in the state [g] of Keras: the layer and the state
    Keras is left in. *)
Definition __init__ (g : Keras.state) (a : init_args)
  : result (BaseSpectralConv * Keras.state) :=
  '(name, g) ← layer_init "base_spectral_conv" (arg_name a) g;
  let rank := arg_rank a in
  let filters := arg_filters a in
  modes ← standardize_tuple (arg_modes a) rank "modes";
  let use_bias := arg_use_bias a in
  kernel_initializer ← get g Initializer (arg_kernel_initializer a);
  bias_initializer ← get g Initializer (arg_bias_initializer a);
  kernel_regularizer ← get g Regularizer (arg_kernel_regularizer a);
  bias_regularizer ← get g Regularizer (arg_bias_regularizer a);
  kernel_constraint ← get g Constraint (arg_kernel_constraint a);
  bias_constraint ← get g Constraint (arg_bias_constraint a);
  data_format ← standardize_data_format (arg_data_format a);
  rfft_fn ← getattr_fft (if bool_decide (rank = 1%nat) then "rfft" else "rfft" +:+ pretty rank);
  irfft_fn ← getattr_fft (if bool_decide (rank = 1%nat) then "irfft" else "irfft" +:+ pretty rank);
  _ ← check_filters filters;
  _ ← check_modes modes;
  _ ← check_data_format data_format;
  Ok ({| name := name; rank := rank; filters := filters; modes := modes;
         use_bias := use_bias;
         kernel_initializer := kernel_initializer; bias_initializer := bias_initializer;
         kernel_regularizer := kernel_regularizer; bias_regularizer := bias_regularizer;
         kernel_constraint := kernel_constraint; bias_constraint := bias_constraint;
         data_format := data_format; rfft_fn_name := rfft_fn; irfft_fn_name := irfft_fn |},
      g).

(** ** Tensors and the array operations of [keras.ops] *)

(** On operands that fit, an operation returns what both backends return.
    On operands that do not fit the backend raises an exception of its own
    class, [BackendError]; the one operation where the backends differ in
    what they accept, [einsum], takes the backend as an argument. *)

Module Tensor.

(** The numbers a tensor holds. The layer only adds, subtracts and
    multiplies them; the Fourier transforms also scale by a rational. *)
Class Scalar (T : Type) := {
  szero : T;
  sadd : T -> T -> T;
  ssub : T -> T -> T;
  smul : T -> T -> T;
  sscale : Q -> T -> T
}.

Record tensor (T : Type) := mk_tensor {
  shape : list nat;
  entry : list nat -> T
}.

Arguments mk_tensor {T} shape entry.
Arguments shape {T} t.
Arguments entry {T} t idx.

Definition ndim {T} (x : tensor T) : nat := length (shape x).

(** All indices of a shape, in row-major order. *)
Fixpoint indices (sh : list nat) : list (list nat) :=
  match sh with
  | [] => [[]]
  | n :: sh' => flat_map (fun i => map (cons i) (indices sh')) (seq 0 n)
  end.

Definition to_list {T} (x : tensor T) : list T := map (entry x) (indices (shape x)).

(** Row-major position of an index. *)
Fixpoint flat_index (sh idx : list nat) : nat :=
  match sh, idx with
  | n :: sh', i :: idx' => (i * fold_right Nat.mul 1 sh' + flat_index sh' idx')%nat
  | _, _ => 0%nat
  end.

Definition of_list {T} `{Scalar T} (sh : list nat) (data : list T) : tensor T :=
  mk_tensor sh (fun idx => nth (flat_index sh idx) data szero).

Definition index_of (j : nat) (l : list nat) : nat :=
  match list_find (fun a => a = j) l with
  | Some (i, _) => i
  | None => 0%nat
  end.

(** [ops.transpose(x, axes)]: axis [i] of the result is axis [axes[i]] of [x]. *)
Definition transpose {T} (axes : list nat) (x : tensor T) : result (tensor T) :=
  if bool_decide (length axes = ndim x)
     && forallb (fun j => bool_decide (j ∈ axes)) (seq 0 (ndim x))
  then Ok (mk_tensor (map (fun a => nth a (shape x) 0%nat) axes)
             (fun idx => entry x (map (fun j => nth (index_of j axes) idx 0%nat) (seq 0 (ndim x)))))
  else Raise (BackendError "transpose").

(** [ops.roll(x, shift, axis)]: the entry at position [i] moves to position
    [(i + shift) mod n] along [axis]. *)
Definition roll {T} (x : tensor T) (shift : Z) (axis : nat) : result (tensor T) :=
  match shape x !! axis with
  | Some n =>
      Ok (mk_tensor (shape x)
            (fun idx => entry x (alter (fun j => Z.to_nat ((Z.of_nat j - shift) mod Z.of_nat n)) axis idx)))
  | None => Raise (BackendError "roll")
  end.

(** Length of [range(n)[:stop]]. *)
Definition slice_len (n : nat) (stop : option Z) : nat :=
  match stop with
  | None => n
  | Some m => if m <? 0 then Z.to_nat (Z.max 0 (Z.of_nat n + m))
              else Z.to_nat (Z.min m (Z.of_nat n))
  end.

(** [x[(slice(None, s0), slice(None, s1), ...)]]: leading entries along the
    first axes. *)
Definition getitem {T} (x : tensor T) (stops : list (option Z)) : result (tensor T) :=
  if (length stops <=? ndim x)%nat
  then Ok (mk_tensor (zip_with slice_len (take (length stops) (shape x)) stops
                        ++ drop (length stops) (shape x))
             (entry x))
  else Raise (BackendError "getitem").

(** [ops.pad(x, pad_width)] with the default constant (zero) mode. *)
Definition pad {T} `{Scalar T} (x : tensor T) (pad_width : list (Z * Z)) : result (tensor T) :=
  if negb (bool_decide (length pad_width = ndim x))
  then Raise (BackendError "pad")
  else if existsb (fun p => (p.1 <? 0) || (p.2 <? 0)) pad_width
  then Raise (BackendError "pad")
  else Ok (mk_tensor
             (zip_with (fun n p => (Z.to_nat p.1 + n + Z.to_nat p.2)%nat) (shape x) pad_width)
             (fun idx =>
                if forallb (fun q => (Z.to_nat q.2.2.1 <=? q.1)%nat
                                     && (q.1 <? Z.to_nat q.2.2.1 + q.2.1)%nat)
                     (zip idx (zip (shape x) pad_width))
                then entry x (zip_with (fun i p => (i - Z.to_nat p.1)%nat) idx pad_width)
                else szero)).

(** Broadcasting of two shapes, on the reversed shapes. *)
Fixpoint broadcast_rev (a b : list nat) : option (list nat) :=
  match a, b with
  | [], _ => Some b
  | _, [] => Some a
  | x :: a', y :: b' =>
      match broadcast_rev a' b' with
      | Some r => if (x =? y)%nat then Some (x :: r)
                  else if (x =? 1)%nat then Some (y :: r)
                  else if (y =? 1)%nat then Some (x :: r)
                  else None
      | None => None
      end
  end.

Definition broadcast_shapes (a b : list nat) : option (list nat) :=
  match broadcast_rev (rev a) (rev b) with
  | Some r => Some (rev r)
  | None => None
  end.

(** The index an operand of shape [sh] is read at for the index [idx] of
    the broadcast result: the trailing axes, with 0 on axes of extent 1. *)
Definition bcast_index (sh idx : list nat) : list nat :=
  zip_with (fun n i => if (n =? 1)%nat then 0%nat else i) sh
    (drop (length idx - length sh) idx).

(** An elementwise binary operation with broadcasting ([+], [-]). *)
Definition binop {T} (f : T -> T -> T) (a b : tensor T) : result (tensor T) :=
  match broadcast_shapes (shape a) (shape b) with
  | Some sh =>
      Ok (mk_tensor sh (fun idx => f (entry a (bcast_index (shape a) idx))
                                     (entry b (bcast_index (shape b) idx))))
  | None => Raise (BackendError "broadcast")
  end.

Definition add {T} `{Scalar T} (a b : tensor T) : result (tensor T) := binop sadd a b.
Definition sub {T} `{Scalar T} (a b : tensor T) : result (tensor T) := binop ssub a b.

(** *** [ops.einsum] *)

(** [s.split(c)] on a list of characters. *)
Fixpoint split_on (c : ascii) (s : list ascii) : list (list ascii) :=
  match s with
  | [] => [[]]
  | a :: s' =>
      if bool_decide (a = c) then [] :: split_on c s'
      else match split_on c s' with
           | w :: ws => (a :: w) :: ws
           | [] => [[a]]
           end
  end.

(** An explicit subscripts string ["ab,cd->ef"]: the labels of every
    operand and of the output. *)
Definition parse_subscripts (spec : string) : option (list (list ascii) * list ascii) :=
  match split_on "-"%char (list_ascii_of_string spec) with
  | [lhs; (">"%char :: out)] => Some (split_on ","%char lhs, out)
  | _ => None
  end.

Definition env := list (ascii * nat).

Definition lookup_label (e : env) (c : ascii) : option nat :=
  match list_find (fun p => p.1 = c) e with
  | Some (_, p) => Some p.2
  | None => None
  end.

Definition label_value (e : env) (c : ascii) : nat := default 0%nat (lookup_label e c).

(** Every label with the extent it has in the operands, first occurrence first. *)
Definition label_sizes {T} (labels : list (list ascii)) (operands : list (tensor T)) : env :=
  flat_map (fun lo => zip lo.1 (shape lo.2)) (zip labels operands).

Definition consistent (sizes : env) : bool :=
  forallb (fun p => bool_decide (lookup_label sizes p.1 = Some p.2)) sizes.

(** All assignments of the labels to values below their extents. *)
Fixpoint assignments (ls : env) : list env :=
  match ls with
  | [] => [[]]
  | (c, n) :: ls' => flat_map (fun i => map (cons (c, i)) (assignments ls')) (seq 0 n)
  end.

Definition product {T} `{Scalar T} (xs : list T) : T :=
  match xs with
  | [] => szero
  | x :: xs' => fold_left smul xs' x
  end.

Definition sum {T} `{Scalar T} (xs : list T) : T := fold_right sadd szero xs.

(** The backends whose branch of [call] runs tensor operations. *)
Inductive backend_kind := Tensorflow | Jax.

(** [x] with every axis of extent 1 stretched to the extent in [target]. *)
Definition stretch {T} (target : list nat) (x : tensor T) : tensor T :=
  mk_tensor target (fun idx => entry x (bcast_index (shape x) idx)).

(** What jax does with operands that do not agree on the extent of a
    label: an extent of 1 is stretched to the extent the label has in the
    other operands; two extents other than 1 that differ cannot be used. *)
Definition stretch_operands {T} (labels : list (list ascii)) (operands : list (tensor T))
  : result (list (tensor T)) :=
  let sizes := label_sizes labels operands in
  let size c := foldr Nat.max 0%nat (map snd (filter (fun p => p.1 = c) sizes)) in
  if forallb (fun p => (p.2 =? 1)%nat || (p.2 =? size p.1)%nat) sizes
  then Ok (map (fun lo => stretch (map size lo.1) lo.2) (zip labels operands))
  else Raise (BackendError "einsum").

(** [ops.einsum(subscripts, *operands)] on the backend [be]. Operands that
    agree on the extent of every label are contracted the same way by both
    backends; when they do not agree tensorflow raises, and jax stretches
    the extents of 1 first. *)
Definition einsum {T} `{Scalar T} (be : backend_kind) (spec : string)
    (operands : list (tensor T)) : result (tensor T) :=
  match parse_subscripts spec with
  | None => Raise (BackendError "einsum")
  | Some (labels, out) =>
      if negb (bool_decide (length labels = length operands))
      then Raise (BackendError "einsum")
      else if negb (forallb (fun lo => bool_decide (length lo.1 = ndim lo.2)) (zip labels operands))
      then Raise (BackendError "einsum")
      else
        operands ← (if consistent (label_sizes labels operands) then Ok operands
                    else match be with
                         | Tensorflow => Raise (BackendError "einsum")
                         | Jax => stretch_operands labels operands
                         end);
        let sizes := label_sizes labels operands in
        if negb (forallb (fun c => bool_decide (is_Some (lookup_label sizes c))) out)
        then Raise (BackendError "einsum")
        else
          let summed := filter (fun p => p.1 ∉ out)
                          (remove_dups (map (fun p => (p.1, label_value sizes p.1)) sizes)) in
          Ok (mk_tensor (map (label_value sizes) out)
                (fun idx =>
                   sum (map (fun e =>
                               product (map (fun lo => entry lo.2 (map (label_value (e ++ zip out idx)) lo.1))
                                          (zip labels operands)))
                          (assignments summed))))
  end.

End Tensor.
Import Tensor.

#[global] Instance Q_scalar : Scalar Q :=
  {| szero := 0%Q; sadd := Qplus; ssub := Qminus; smul := Qmult; sscale := Qmult |}.

(** ** [build] *)

(** What [build] stores on the layer. The two transposes are [partial]s of
    [ops.transpose], kept here by their [axes]; the weights are kept by
    their shapes (their values belong to the optimizer). The three
    backward contractions are attributes that exist only if the guarded
    assignments of lines 175-180 ran. *)
Record build_state := {
  transpose_axes : list nat;
  inverse_transpose_axes : list nat;
  pad_width : list (Z * Z);
  input_spec : nat * (Z * option Z);
  real_kernel_shape : list nat;
  imag_kernel_shape : list nat;
  bias_shape : option (list nat);
  feature_dims : list (option Z);
  mode_truncation_slice : list (option Z);
  einsum_op_forward : string;
  einsum_op_backprop_weights : option string;
  einsum_op_backprop_x : option string;
  einsum_op_backprop_bias : option string
}.

(** The name [backend] imported on line 7: a function object. *)
Definition backend : pyval := PyFunction "keras.src.backend.config.backend".

(** [backend()]: the name of the active backend. *)
Definition backend_call (active : string) : pyval := PyStr active.

(** One entry of the comprehension of line 100; a spatial extent that is
    [None] cannot be used in arithmetic. *)
Definition pad_entry (n_modes : nat) (ims : nat * (Z * option Z)) : result (Z * Z) :=
  let '(i, (m, s)) := ims in
  match s with
  | Some s =>
      Ok (0, if Z.of_nat i =? Z.of_nat n_modes - 1 then s / 2 + 1 - m else s - m)
  | None => Raise (TypeError "unsupported operand type(s): 'NoneType' and 'int'")
  end.

(** [enumerate(l, start)] *)
Fixpoint enumerate_from {A} (start : nat) (l : list A) : list (nat * A) :=
  match l with
  | [] => []
  | x :: l' => (start, x) :: enumerate_from (S start) l'
  end.

Definition enumerate {A} (l : list A) : list (nat * A) := enumerate_from 0 l.

(** ["".join([d for _, d in zip(modes, ["X", "Y", "Z"])])] *)
Definition einsum_dim (modes : list Z) : string :=
  string_of_list_ascii (map snd (zip modes ["X"%char; "Y"%char; "Z"%char])).

(** The three contractions of lines 178-180: for the weights, for the
    input and for the bias. *)
Definition einsum_ops_backprop (einsum_dim : string) : string * string * string :=
  ("bo" +:+ einsum_dim +:+ ",bi" +:+ einsum_dim +:+ "->io" +:+ einsum_dim,
   "bo" +:+ einsum_dim +:+ ",io" +:+ einsum_dim +:+ "->bi" +:+ einsum_dim,
   "bo" +:+ einsum_dim +:+ "->o").

(** [build] on a layer whose [built] flag is [built] (with the state the
    first build stored). The branch for ["channels_first"] leaves [axes]
    unbound, so line 162 raises there. *)
Definition build (self : BaseSpectralConv) (built : option build_state)
    (input_shape : list (option Z)) : result build_state :=
  match built with
  | Some st => Ok st
  | None =>
      let channels_last := bool_decide (data_format self = "channels_last") in
      '(channel_axis, input_channel, axes_tr) ←
        (if channels_last then
           input_channel ← last_item input_shape;
           let axes := seq 0 (length input_shape) in
           '(c, rest) ← pop_last axes;
           let transpose_axes := insert_at 1 c rest in
           '(c', rest') ← pop_at 1 axes;
           let inverse_transpose_axes := rest' ++ [c'] in
           Ok (-1, input_channel, Some (axes, transpose_axes, inverse_transpose_axes))
         else
           match input_shape !! 1%nat with
           | Some input_channel => Ok (1, input_channel, None)
           | None => Raise (IndexError "tuple index out of range")
           end);
      pads ← mapM_result (pad_entry (length (modes self)))
                (enumerate (zip (modes self)
                              (drop (if channels_last then 1 else 2)%nat input_shape)));
      let pad_width := (0, 0) :: (0, 0) :: pads in
      if negb (bool_decide (List.filter (fun x => tuple_lt x (0, 0)) pad_width = []))
      then Raise (ValueError "Too many modes for input shape!")
      else
        let input_spec := ((rank self + 2)%nat, (channel_axis, input_channel)) in
        let kernel_shape := input_channel :: filters self :: map Some (modes self) in
        real_kernel ← add_weight kernel_shape;
        imag_kernel ← add_weight kernel_shape;
        bias ← (if use_bias self
                then Some <$> add_weight (filters self :: replicate (rank self) (Some 1))
                else Ok None);
        match axes_tr with
        | None => Raise (NameError "axes")
        | Some (axes, transpose_axes, inverse_transpose_axes) =>
            '(_, feature_axes) ← pop_at 0 axes;
            '(_, feature_axes) ← pop_last feature_axes;
            let feature_dims := map (fun a => default None (input_shape !! a)) feature_axes in
            let mode_truncation_slice := None :: None :: map Some (modes self) in
            let einsum_dim := einsum_dim (modes self) in
            let einsum_op_forward :=
              "bi" +:+ einsum_dim +:+ ",io" +:+ einsum_dim +:+ "->bo" +:+ einsum_dim in
            let tf := py_eq backend (PyStr "tensorflow") in
            Ok {| transpose_axes := transpose_axes;
                  inverse_transpose_axes := inverse_transpose_axes;
                  pad_width := pad_width;
                  input_spec := input_spec;
                  real_kernel_shape := real_kernel;
                  imag_kernel_shape := imag_kernel;
                  bias_shape := bias;
                  feature_dims := feature_dims;
                  mode_truncation_slice := mode_truncation_slice;
                  einsum_op_forward := einsum_op_forward;
                  einsum_op_backprop_weights :=
                    if tf then Some (einsum_ops_backprop einsum_dim).1.1 else None;
                  einsum_op_backprop_x :=
                    if tf then Some (einsum_ops_backprop einsum_dim).1.2 else None;
                  einsum_op_backprop_bias :=
                    if tf then Some (einsum_ops_backprop einsum_dim).2 else None |}
        end
  end.

(** [compute_output_shape] *)
Definition compute_output_shape (self : BaseSpectralConv) (input_shape : list (option Z))
  : result (list (option Z)) :=
  if bool_decide (data_format self = "channels_last")
  then match input_shape with
       | [] => Raise (IndexError "list assignment index out of range")
       | _ => Ok (removelast input_shape ++ [filters self])
       end
  else match input_shape with
       | b :: _ :: rest => Ok (b :: filters self :: rest)
       | _ => Raise (IndexError "list assignment index out of range")
       end.

(** ** The transforms, the spectral shift and [call] *)

(** The two attributes [rfft_fn] and [irfft_fn] the constructor fetched
    from the transform module, as functions on tensors. *)
Record fft_ops (T : Type) := {
  rfft_fn : tensor T -> result (tensor T * tensor T);
  irfft_fn : tensor T * tensor T -> result (tensor T)
}.

Arguments rfft_fn {T} f x.
Arguments irfft_fn {T} f x.

(** The values of the trainable variables [build] allocated. *)
Record weights (T : Type) := {
  _real_kernel : tensor T;
  _imag_kernel : tensor T;
  bias : option (tensor T)
}.

Arguments _real_kernel {T} w.
Arguments _imag_kernel {T} w.
Arguments bias {T} w.

(** [for x in xs: acc = f(acc, x)] with a body that may raise. *)
Fixpoint foldM_result {A B} (f : A -> B -> result A) (acc : A) (xs : list B) : result A :=
  match xs with
  | [] => Ok acc
  | x :: xs' => acc' ← f acc x; foldM_result f acc' xs'
  end.

(** [range(a, b)] *)
Definition range (a b : nat) : list nat := seq a (b - a).

(** An attribute that may not have been assigned. *)
Definition getattr_opt {A} (attr : string) (v : option A) : result A :=
  match v with
  | Some a => Ok a
  | None => Raise (AttributeError attr)
  end.

Section Call.

Context {T : Type} `{Scalar T}.
Variable fft : fft_ops T.
Variable self : BaseSpectralConv.
Variable st : build_state.
Variable w : weights T.

(** [self.rfft] *)
Definition rfft (x : tensor T) : result (tensor T * tensor T) :=
  x ← transpose (transpose_axes st) x;
  rfft_fn fft x.

(** [self.irfft] *)
Definition irfft (inputs : tensor T * tensor T) : result (tensor T) :=
  let '(x_real, x_imag) := inputs in
  y_real ← irfft_fn fft (x_real, x_imag);
  transpose (inverse_transpose_axes st) y_real.

(** [self.rfft_shift], lines 255-260. *)
Definition rfft_shift (inputs : tensor T) : result (tensor T) :=
  let shape := ndim inputs in
  foldM_result (fun inputs am => roll inputs (- am.2 / 2) am.1) inputs
    (zip (range (length (modes self)) (shape - 1)) (modes self)).

(** Lines 295-303 (and 400-408): transform, shift, truncate. *)
Definition truncated_spectrum (inputs : tensor T) : result (tensor T * tensor T) :=
  '(x_hat_real, x_hat_imag) ← rfft inputs;
  x_hat_real ← rfft_shift x_hat_real;
  x_hat_imag ← rfft_shift x_hat_imag;
  x_hat_real_truncated ← getitem x_hat_real (mode_truncation_slice st);
  x_hat_imag_truncated ← getitem x_hat_imag (mode_truncation_slice st);
  Ok (x_hat_real_truncated, x_hat_imag_truncated).

(** Line 305. *)
Definition tf_y_hat_real_truncated (x_hat_real_truncated x_hat_imag_truncated : tensor T)
  : result (tensor T) :=
  a ← einsum Tensorflow (einsum_op_forward st) [x_hat_real_truncated; _real_kernel w];
  b ← einsum Tensorflow (einsum_op_forward st) [x_hat_imag_truncated; _imag_kernel w];
  sub a b.

(** Line 306. *)
Definition tf_y_hat_imag_truncated (x_hat_real_truncated x_hat_imag_truncated : tensor T)
  : result (tensor T) :=
  a ← einsum Tensorflow (einsum_op_forward st) [x_hat_real_truncated; _real_kernel w];
  b ← einsum Tensorflow (einsum_op_forward st) [x_hat_imag_truncated; _imag_kernel w];
  sub a b.

(** Line 410. *)
Definition jax_y_hat_real_truncated (x_hat_real_reduced x_hat_imag_reduced : tensor T)
  : result (tensor T) :=
  a ← einsum Jax (einsum_op_forward st) [x_hat_real_reduced; _real_kernel w];
  b ← einsum Jax (einsum_op_forward st) [x_hat_imag_reduced; _imag_kernel w];
  sub a b.

(** Line 411. *)
Definition jax_y_hat_imag_truncated (x_hat_real_reduced x_hat_imag_reduced : tensor T)
  : result (tensor T) :=
  a ← einsum Jax (einsum_op_forward st) [x_hat_real_reduced; _real_kernel w];
  b ← einsum Jax (einsum_op_forward st) [x_hat_imag_reduced; _imag_kernel w];
  sub a b.

(** [y += self.bias] *)
Definition add_bias (y : tensor T) : result (tensor T) :=
  match bias w with
  | Some b => add y b
  | None => Raise (BackendError "add")
  end.

(** Lines 308-314 (and 413-419): pad, then add the bias. *)
Definition pad_and_bias (y_hat_real_truncated y_hat_imag_truncated : tensor T)
  : result (tensor T * tensor T) :=
  y_hat_real ← pad y_hat_real_truncated (pad_width st);
  y_hat_imag ← pad y_hat_imag_truncated (pad_width st);
  if use_bias self then
    y_hat_real ← add_bias y_hat_real;
    y_hat_imag ← add_bias y_hat_imag;
    Ok (y_hat_real, y_hat_imag)
  else Ok (y_hat_real, y_hat_imag).

(** Lines 316-321 (and 421-426): shift, inverse transform. *)
Definition reconstruct (y_hat : tensor T * tensor T) : result (tensor T) :=
  let '(y_hat_real, y_hat_imag) := y_hat in
  y_hat_real ← rfft_shift y_hat_real;
  y_hat_imag ← rfft_shift y_hat_imag;
  irfft (y_hat_real, y_hat_imag).

(** The tensors that enter the shift of lines 316-318, for the tensorflow path. *)
Definition tf_padded_spectrum (inputs : tensor T) : result (tensor T * tensor T) :=
  '(x_hat_real_truncated, x_hat_imag_truncated) ← truncated_spectrum inputs;
  y_hat_real_truncated ← tf_y_hat_real_truncated x_hat_real_truncated x_hat_imag_truncated;
  y_hat_imag_truncated ← tf_y_hat_imag_truncated x_hat_real_truncated x_hat_imag_truncated;
  pad_and_bias y_hat_real_truncated y_hat_imag_truncated.

(** The same for the jax path (lines 400-419). *)
Definition jax_padded_spectrum (inputs : tensor T) : result (tensor T * tensor T) :=
  '(x_hat_real_reduced, x_hat_imag_reduced) ← truncated_spectrum inputs;
  y_hat_real_truncated ← jax_y_hat_real_truncated x_hat_real_reduced x_hat_imag_reduced;
  y_hat_imag_truncated ← jax_y_hat_imag_truncated x_hat_real_reduced x_hat_imag_reduced;
  pad_and_bias y_hat_real_truncated y_hat_imag_truncated.

(** [backprop], lines 323-378; [x_hat_real_truncated] and
    [x_hat_imag_truncated] are the variables of the enclosing [forward]. *)
Definition backprop (x_hat_real_truncated x_hat_imag_truncated : tensor T) (dy : tensor T)
  : result (tensor T * list (tensor T)) :=
  '(dy_hat_real, dy_hat_imag) ← rfft dy;
  dy_hat_real ← rfft_shift dy_hat_real;
  dy_hat_imag ← rfft_shift dy_hat_imag;
  dy_hat_real_truncated ← getitem dy_hat_real (mode_truncation_slice st);
  dy_hat_imag_truncated ← getitem dy_hat_imag (mode_truncation_slice st);
  dw_real ← (op ← getattr_opt "einsum_op_backprop_weights" (einsum_op_backprop_weights st);
             a ← einsum Tensorflow op [dy_hat_real_truncated; x_hat_real_truncated];
             op ← getattr_opt "einsum_op_backprop_weights" (einsum_op_backprop_weights st);
             b ← einsum Tensorflow op [dy_hat_imag_truncated; x_hat_imag_truncated];
             add a b);
  dw_imag ← (op ← getattr_opt "einsum_op_backprop_weights" (einsum_op_backprop_weights st);
             a ← einsum Tensorflow op [dy_hat_real_truncated; x_hat_imag_truncated];
             op ← getattr_opt "einsum_op_backprop_weights" (einsum_op_backprop_weights st);
             b ← einsum Tensorflow op [dy_hat_imag_truncated; x_hat_real_truncated];
             sub a b);
  db ← (if use_bias self then
          op ← getattr_opt "einsum_op_backprop_bias" (einsum_op_backprop_bias st);
          s ← add dy_hat_real_truncated dy_hat_imag_truncated;
          Some <$> einsum Tensorflow op [s]
        else Ok None);
  dx_hat_real_truncated ←
    (op ← getattr_opt "einsum_op_backprop_x" (einsum_op_backprop_x st);
     a ← einsum Tensorflow op [dy_hat_real_truncated; _real_kernel w];
     op ← getattr_opt "einsum_op_backprop_x" (einsum_op_backprop_x st);
     b ← einsum Tensorflow op [dy_hat_imag_truncated; _imag_kernel w];
     add a b);
  dx_hat_imag_truncated ←
    (op ← getattr_opt "einsum_op_backprop_x" (einsum_op_backprop_x st);
     a ← einsum Tensorflow op [dy_hat_imag_truncated; _real_kernel w];
     op ← getattr_opt "einsum_op_backprop_x" (einsum_op_backprop_x st);
     b ← einsum Tensorflow op [dy_hat_real_truncated; _imag_kernel w];
     sub a b);
  dx_hat_real ← pad dx_hat_real_truncated (pad_width st);
  dx_hat_imag ← pad dx_hat_imag_truncated (pad_width st);
  dx_hat_real ← rfft_shift dx_hat_real;
  dx_hat_imag ← rfft_shift dx_hat_imag;
  dx ← irfft (dx_hat_real, dx_hat_imag);
  match db with
  | Some db => Ok (dx, [db; dw_real; dw_imag])
  | None => Ok (dx, [dw_real; dw_imag])
  end.

(** [forward], lines 279-380: the output and the registered gradient. *)
Definition forward (inputs : tensor T)
  : result (tensor T * (tensor T -> result (tensor T * list (tensor T)))) :=
  '(x_hat_real_truncated, x_hat_imag_truncated) ← truncated_spectrum inputs;
  y_hat_real_truncated ← tf_y_hat_real_truncated x_hat_real_truncated x_hat_imag_truncated;
  y_hat_imag_truncated ← tf_y_hat_imag_truncated x_hat_real_truncated x_hat_imag_truncated;
  y_hat ← pad_and_bias y_hat_real_truncated y_hat_imag_truncated;
  y ← reconstruct y_hat;
  Ok (y, backprop x_hat_real_truncated x_hat_imag_truncated).

(** The jax branch of [call], lines 400-428. *)
Definition call_jax (inputs : tensor T) : result (tensor T) :=
  '(x_hat_real_reduced, x_hat_imag_reduced) ← truncated_spectrum inputs;
  y_hat_real_truncated ← jax_y_hat_real_truncated x_hat_real_reduced x_hat_imag_reduced;
  y_hat_imag_truncated ← jax_y_hat_imag_truncated x_hat_real_reduced x_hat_imag_reduced;
  y_hat ← pad_and_bias y_hat_real_truncated y_hat_imag_truncated;
  reconstruct y_hat.

(** What [call] hands back: with the tensorflow backend the output carries
    the gradient function [ops.custom_gradient] registered for it. *)
Inductive call_result :=
| WithGradient (y : tensor T) (grad : tensor T -> result (tensor T * list (tensor T)))
| Plain (y : tensor T).

Definition output (r : call_result) : tensor T :=
  match r with
  | WithGradient y _ => y
  | Plain y => y
  end.

(** [call] under the active backend [active]. *)
Definition call (active : string) (inputs : tensor T) : result call_result :=
  if py_eq (backend_call active) (PyStr "tensorflow") then
    '(y, grad) ← forward inputs;
    Ok (WithGradient y grad)
  else if py_eq (backend_call active) (PyStr "jax") then
    y ← call_jax inputs;
    Ok (Plain y)
  else Raise (NotImplementedError
                "The call method is only implemented for keras backends `'tensorflow'` and `'jax'`").

End Call.

(** ** Serialization *)

Definition dict_update (d : gmap string cfg_value) (kvs : list (string * cfg_value))
  : gmap string cfg_value :=
  foldl (fun d kv => <[kv.1 := kv.2]> d) d kvs.

(** [d.pop(key)] without a default. *)
Definition dict_pop (key : string) (d : gmap string cfg_value)
  : result (cfg_value * gmap string cfg_value) :=
  match d !! key with
  | Some v => Ok (v, delete key d)
  | None => Raise (KeyError key)
  end.

Definition opt_int (v : option Z) : cfg_value :=
  match v with
  | Some z => CInt z
  | None => CNone
  end.

(** [get_config], lines 471-484. *)
Definition get_config (self : BaseSpectralConv) : gmap string cfg_value :=
  let config := base_get_config (name self) in
  dict_update config
    [("filters", opt_int (filters self));
     ("modes", CTuple (modes self));
     ("data_format", CStr (data_format self));
     ("use_bias", CBool (use_bias self));
     ("kernel_initializer", serialize (kernel_initializer self));
     ("bias_initializer", serialize (bias_initializer self));
     ("kernel_constraint", serialize (kernel_constraint self));
     ("bias_constraint", serialize (bias_constraint self));
     ("kernel_regularizer", serialize (kernel_regularizer self));
     ("bias_regularizer", serialize (bias_regularizer self))].

(** A required keyword argument of the constructor. *)
Definition required (key : string) (config : gmap string cfg_value) : result cfg_value :=
  match config !! key with
  | Some v => Ok v
  | None => Raise (TypeError ("__init__() missing 1 required positional argument: '" +:+ key +:+ "'"))
  end.

Definition truthy (v : cfg_value) : bool :=
  match v with
  | CNone => false
  | CInt z => negb (z =? 0)
  | CBool b => b
  | CStr s => negb (bool_decide (s = ""))
  | CTuple vs => negb (bool_decide (vs = []))
  | _ => true
  end.

(** The constructor called with the configuration as keyword arguments,
    line 521, in the state [g] of Keras. The class is [BaseSpectralConv]
    itself ([cls_rank] is [None] and [rank] has to come from the
    configuration) or a subclass that fixes the rank. A configuration of
    [get_config] carries the name; an automatic name is modelled for
    [BaseSpectralConv] only (a subclass would get one from its own class
    name). *)
Definition construct (g : Keras.state) (cls_rank : option nat)
    (config : gmap string cfg_value) : result (BaseSpectralConv * Keras.state) :=
  rank ← match cls_rank with
         | Some r => Ok r
         | None => v ← required "rank" config;
                   match v with
                   | CInt r => Ok (Z.to_nat r)
                   | _ => Raise (TypeError "rank must be an integer")
                   end
         end;
  filters ← required "filters" config;
  filters ← match filters with
            | CInt f => Ok (Some f)
            | CNone => Ok None
            | _ => Raise (TypeError "'<=' not supported for filters")
            end;
  modes ← required "modes" config;
  modes ← match modes with
           | CInt m => Ok (ModesInt m)
           | CTuple ms => Ok (ModesSeq ms)
           | _ => Raise (ValueError "The `modes` argument must be a tuple of integers.")
           end;
  __init__ g
    {| arg_rank := rank; arg_filters := filters; arg_modes := modes;
       arg_data_format := match config !! "data_format" with
                          | Some (CStr s) => s
                          | _ => "channels_last"
                          end;
       arg_use_bias := truthy (default (CBool true) (config !! "use_bias"));
       arg_kernel_initializer := default (CStr "he_normal") (config !! "kernel_initializer");
       arg_bias_initializer := default (CStr "zeros") (config !! "bias_initializer");
       arg_kernel_constraint := default CNone (config !! "kernel_constraint");
       arg_bias_constraint := default CNone (config !! "bias_constraint");
       arg_kernel_regularizer := default CNone (config !! "kernel_regularizer");
       arg_bias_regularizer := default CNone (config !! "bias_regularizer");
       arg_name := match config !! "name" with
                   | Some (CStr s) => Some s
                   | _ => None
                   end |}.

Definition object_value (o : option kobject) : cfg_value :=
  match o with
  | Some o => CObject o
  | None => CNone
  end.

(** [from_config], lines 505-521. *)
Definition from_config (g : Keras.state) (cls_rank : option nat)
    (config : gmap string cfg_value) : result (BaseSpectralConv * Keras.state) :=
  '(kernel_initializer_cfg, config) ← dict_pop "kernel_initialzer" config;
  '(bias_initializer_cfg, config) ← dict_pop "bias_initialzer" config;
  '(kernel_constraint_cfg, config) ← dict_pop "kernel_constraint" config;
  '(bias_constraint_cfg, config) ← dict_pop "bias_constraint" config;
  '(kernel_regularizer_cfg, config) ← dict_pop "kernel_regularizer" config;
  '(bias_regularizer_cfg, config) ← dict_pop "bias_regularizer" config;
  kernel_initializer ← deserialize kernel_initializer_cfg;
  bias_initializer ← deserialize bias_initializer_cfg;
  kernel_constraint ← deserialize kernel_constraint_cfg;
  bias_constraint ← deserialize bias_constraint_cfg;
  kernel_regularizer ← deserialize kernel_regularizer_cfg;
  bias_regularizer ← deserialize bias_regularizer_cfg;
  let config := dict_update config
                  [("kernel_initializer", object_value kernel_initializer);
                   ("bias_initializer", object_value bias_initializer);
                   ("kernel_constraint", object_value kernel_constraint);
                   ("bias_constraint", object_value bias_constraint);
                   ("kernel_regularizer", object_value kernel_regularizer);
                   ("bias_regularizer", object_value bias_regularizer)] in
  construct g cls_rank config.

(** ** The one-dimensional transforms on lengths dividing four *)

(** Modelled from the spec: [keras_addon.ops.fft] is not among the sources.
    [rfft] is the real-to-complex discrete Fourier transform along the last
    axis, giving the [n/2+1] non-negative frequencies as a real and an
    imaginary part; [irfft] is its inverse, complex-to-real. The instance
    here covers the lengths 1, 2 and 4, where every factor [exp(2*pi*i*jk/n)]
    has real and imaginary part in {0, 1, -1} and the arithmetic is exact. *)
Module ExactFFT.

Section Transforms.

Context {T : Type} `{Scalar T}.

Definition exact (n : nat) : bool := bool_decide (n ∈ [1; 2; 4]%nat).

(** The angle [2*pi*jk/n] in quarter turns. *)
Definition quarter (n jk : nat) : nat := ((4 * jk / n) mod 4)%nat.

Definition cos_turn (n jk : nat) : Q :=
  match quarter n jk with
  | 0%nat => 1%Q
  | 2%nat => (-1)%Q
  | _ => 0%Q
  end.

Definition sin_turn (n jk : nat) : Q :=
  match quarter n jk with
  | 1%nat => 1%Q
  | 3%nat => (-1)%Q
  | _ => 0%Q
  end.

(** The last entry of a shape or of an index. *)
Definition last_entry (l : list nat) : nat := default 0%nat (last l).

Definition set_last (idx : list nat) (j : nat) : list nat := removelast idx ++ [j].

Definition rfft (x : tensor T) : result (tensor T * tensor T) :=
  let n := last_entry (shape x) in
  if exact n then
    let sh := removelast (shape x) ++ [(n / 2 + 1)%nat] in
    Ok (mk_tensor sh
          (fun idx => sum (map (fun j => sscale (cos_turn n (j * last_entry idx))
                                           (entry x (set_last idx j))) (seq 0 n))),
        mk_tensor sh
          (fun idx => sum (map (fun j => sscale (- sin_turn n (j * last_entry idx))%Q
                                           (entry x (set_last idx j))) (seq 0 n))))
  else Raise (NotImplementedError "length outside the exact transforms").

Definition irfft (xs : tensor T * tensor T) : result (tensor T) :=
  let '(re, im) := xs in
  let m := last_entry (shape re) in
  let n := (2 * (m - 1))%nat in
  if exact n && bool_decide (shape re = shape im) then
    Ok (mk_tensor (removelast (shape re) ++ [n])
          (fun idx =>
             sscale (1 # Pos.of_nat n)
               (sum (map (fun k =>
                            let c : Q := if bool_decide (k = 0%nat \/ k = (m - 1)%nat) then 1%Q else 2%Q in
                            sadd (sscale (c * cos_turn n (last_entry idx * k))%Q (entry re (set_last idx k)))
                                 (sscale (- (c * sin_turn n (last_entry idx * k)))%Q (entry im (set_last idx k))))
                       (seq 0 m)))))
  else Raise (NotImplementedError "length outside the exact transforms").

Definition ops : fft_ops T := {| rfft_fn := rfft; irfft_fn := irfft |}.

End Transforms.

End ExactFFT.

(** ** Derivatives by dual numbers *)

(** A number [a + b*eps] with [eps*eps = 0]: running the forward pass on
    [x + eps*v] gives the value and the directional derivative along [v]. *)
Record dual := mk_dual { primal : Q; tangent : Q }.

#[global] Instance dual_scalar : Scalar dual :=
  {| szero := mk_dual 0%Q 0%Q;
     sadd a b := mk_dual (primal a + primal b)%Q (tangent a + tangent b)%Q;
     ssub a b := mk_dual (primal a - primal b)%Q (tangent a - tangent b)%Q;
     smul a b := mk_dual (primal a * primal b)%Q (primal a * tangent b + tangent a * primal b)%Q;
     sscale q a := mk_dual (q * primal a)%Q (q * tangent a)%Q |}.

(** The tensor [x] as a constant. *)
Definition constant (x : tensor Q) : tensor dual :=
  mk_tensor (shape x) (fun idx => mk_dual (entry x idx) 0%Q).

(** The tensor [x] perturbed along its entry [at_]. *)
Definition perturbed (x : tensor Q) (at_ : list nat) : tensor dual :=
  mk_tensor (shape x)
    (fun idx => mk_dual (entry x idx) (if bool_decide (idx = at_) then 1%Q else 0%Q)).

(** The derivative of the loss [sum (dy * y)] along the perturbation [y] carries. *)
Definition loss_derivative (dy : tensor Q) (y : tensor dual) : Q :=
  Tensor.sum (map (fun idx => (entry dy idx * tangent (entry y idx))%Q) (indices (shape y))).

(** ** Vocabulary of the statements *)

(** The tuple a [modes] argument stands for. *)
Definition as_tuple (value : modes_arg) (n : nat) : list Z :=
  match value with
  | ModesInt v => replicate n v
  | ModesSeq vs => vs
  end.

(** The attribute name the constructor looks up, lines 45-46. *)
Definition fft_name (prefix : string) (rank : nat) : string :=
  if bool_decide (rank = 1%nat) then prefix else prefix +:+ pretty rank.



Definition with_filters (f : option Z) (a : init_args) : init_args :=
  {| arg_rank := arg_rank a; arg_filters := f; arg_modes := arg_modes a;
     arg_data_format := arg_data_format a; arg_use_bias := arg_use_bias a;
     arg_kernel_initializer := arg_kernel_initializer a;
     arg_bias_initializer := arg_bias_initializer a;
     arg_kernel_constraint := arg_kernel_constraint a;
     arg_bias_constraint := arg_bias_constraint a;
     arg_kernel_regularizer := arg_kernel_regularizer a;
     arg_bias_regularizer := arg_bias_regularizer a;
     arg_name := arg_name a |}.

(** The padding plan in the words of the specification: nothing on the
    batch and channel axes; on the high side of a spatial axis
    [extent - mode], except on the last one, [extent // 2 + 1 - mode]. *)
Fixpoint spatial_pads (modes exts : list Z) : list (Z * Z) :=
  match modes, exts with
  | [m], [s] => [(0, s / 2 + 1 - m)]
  | m :: ms, s :: ss => (0, s - m) :: spatial_pads ms ss
  | _, _ => []
  end.

Definition spec_padding_plan (modes exts : list Z) : list (Z * Z) :=
  (0, 0) :: (0, 0) :: spatial_pads modes exts.

(** The state [build] stores for a channels-last layer on a fully known
    input shape [(batch, *exts, channels)], given the weights allocated. *)
Definition built_state (self : BaseSpectralConv) (batch : option Z) (exts : list Z) (channels : Z)
    (real_kernel imag_kernel : list nat) (bias : option (list nat)) : build_state :=
  let k := length exts in
  let input_shape := batch :: map Some exts ++ [Some channels] in
  {| transpose_axes := insert_at 1 (S k) (seq 0 (S k));
     inverse_transpose_axes := (0%nat :: seq 2 k) ++ [1%nat];
     pad_width := spec_padding_plan (modes self) exts;
     input_spec := ((rank self + 2)%nat, (-1, Some channels));
     real_kernel_shape := real_kernel;
     imag_kernel_shape := imag_kernel;
     bias_shape := bias;
     feature_dims := map (fun a => default None (input_shape !! a)) (seq 1 k);
     mode_truncation_slice := None :: None :: map Some (modes self);
     einsum_op_forward :=
       "bi" +:+ einsum_dim (modes self) +:+ ",io" +:+ einsum_dim (modes self)
            +:+ "->bo" +:+ einsum_dim (modes self);
     einsum_op_backprop_weights := None;
     einsum_op_backprop_x := None;
     einsum_op_backprop_bias := None |}.

(** What is read off a rational tensor: its shape and its entries in
    row-major order, in lowest terms. *)
Definition observe (x : tensor Q) : list nat * list Q :=
  (shape x, map Qred (to_list x)).

Definition integers (sh : list nat) (data : list Z) : tensor Q :=
  of_list sh (map inject_Z data).

(** A state in which the three backward contractions are assigned, as the
    guarded lines 178-180 would assign them. *)
Definition assign_backprop_ops (self : BaseSpectralConv) (st : build_state) : build_state :=
  let ops := einsum_ops_backprop (einsum_dim (modes self)) in
  {| transpose_axes := transpose_axes st;
     inverse_transpose_axes := inverse_transpose_axes st;
     pad_width := pad_width st;
     input_spec := input_spec st;
     real_kernel_shape := real_kernel_shape st;
     imag_kernel_shape := imag_kernel_shape st;
     bias_shape := bias_shape st;
     feature_dims := feature_dims st;
     mode_truncation_slice := mode_truncation_slice st;
     einsum_op_forward := einsum_op_forward st;
     einsum_op_backprop_weights := Some ops.1.1;
     einsum_op_backprop_x := Some ops.1.2;
     einsum_op_backprop_bias := Some ops.2 |}.

(** The gradient function [forward] registers, applied to [dy]. *)
Definition registered_gradient {T : Type} `{Scalar T} (fft : fft_ops T)
    (self : BaseSpectralConv) (st : build_state) (w : weights T) (inputs dy : tensor T)
  : result (tensor T * list (tensor T)) :=
  '(_, grad) ← forward fft self st w inputs;
  grad dy.

Definition observe_gradients (r : result (tensor Q * list (tensor Q)))
  : result ((list nat * list Q) * list (list nat * list Q)) :=
  (fun g => (observe g.1, map observe g.2)) <$> r.

(** Automatic differentiation of the jax path: the derivative of the loss
    [sum (dy * call(x))] along the perturbation carried by the arguments. *)
Definition autodiff (self : BaseSpectralConv) (st : build_state)
    (real_kernel imag_kernel b x : tensor dual) (dy : tensor Q) : result Q :=
  y ← call_jax ExactFFT.ops self st
         {| _real_kernel := real_kernel; _imag_kernel := imag_kernel; bias := Some b |} x;
  Ok (Qred (loss_derivative dy y)).

(** *** The layers of the examples *)

(** [BaseSpectralConv(rank, filters, modes)] with the defaults of the
    signature, as the first layer Keras names automatically. *)
Definition layer (rank : nat) (filters : Z) (modes : list Z) : BaseSpectralConv :=
  {| name := "base_spectral_conv"; rank := rank; filters := Some filters; modes := modes;
     use_bias := true;
     kernel_initializer := Some (KObject "he_normal");
     bias_initializer := Some (KObject "zeros");
     kernel_regularizer := None; bias_regularizer := None;
     kernel_constraint := None; bias_constraint := None;
     data_format := "channels_last";
     rfft_fn_name := fft_name "rfft" rank; irfft_fn_name := fft_name "irfft" rank |}.

(** [BaseSpectralConv(rank=1, filters=1, modes=(2,))], built on [(1, 4, 1)]. *)
Definition conv1d : BaseSpectralConv := layer 1 1 [2].

Definition conv1d_state : build_state :=
  built_state conv1d (Some 1) [4] 1 [1; 1; 2]%nat [1; 1; 2]%nat (Some [1; 1]%nat).

(** The same layer built on [(1, 4, 3)]: three input channels. *)
Definition conv1d_state3 : build_state :=
  built_state conv1d (Some 1) [4] 3 [3; 1; 2]%nat [3; 1; 2]%nat (Some [1; 1]%nat).

(** Keras after it has named one [BaseSpectralConv] automatically. *)
Definition named_once : Keras.state := (uniquify "base_spectral_conv" Keras.initial).2.

(** [BaseSpectralConv(rank=2, filters=1, modes=(2, 2))]. *)
Definition conv2d : BaseSpectralConv := layer 2 1 [2; 2].



(** [BaseSpectralConv(rank=3, filters=1, modes=(2, 4, 2))]. *)
Definition conv3d : BaseSpectralConv := layer 3 1 [2; 4; 2].

Definition real_kernel1 : tensor Q := integers [1; 1; 2]%nat [2; 3].
Definition imag_kernel1 : tensor Q := integers [1; 1; 2]%nat [5; 7].
Definition bias1 : tensor Q := integers [1; 1]%nat [1].

Definition weights1 : weights Q :=
  {| _real_kernel := real_kernel1; _imag_kernel := imag_kernel1; bias := Some bias1 |}.

(** An input of shape [(1, 4, 1)] and an upstream gradient of that shape. *)
Definition input1 : tensor Q := integers [1; 4; 1]%nat [1; 2; 0; 0].
Definition dy1 : tensor Q := integers [1; 4; 1]%nat [1; 0; 0; 0].

(** An input of shape [(1, 4, 3)]: channel [c] holds [c + 1] at position 0. *)
Definition input3 : tensor Q :=
  integers [1; 4; 3]%nat [1; 2; 3; 0; 0; 0; 0; 0; 0; 0; 0; 0].

(** The extents of the transformed tensors, as the docstring inside [build]
    gives them (lines 151-154): every transformed axis keeps its length,
    except the last, which has [n // 2 + 1] entries. *)
Fixpoint transformed_extents (exts : list Z) : list Z :=
  match exts with
  | [] => []
  | [s] => [s / 2 + 1]
  | s :: ss => s :: transformed_extents ss
  end.


(** * Properties *)

(** ** The error monad *)

Lemma bind_ok {A B} (m : result A) (f : A -> result B) (b : B) :
  (m ≫= f) = Ok b <-> exists a, m = Ok a /\ f a = Ok b.
Proof.
  destruct m as [a|e]; simpl; split.
  - intros Hf. exists a. split; [reflexivity | exact Hf].
  - intros (a' & Ha & Hf). injection Ha as <-. exact Hf.
  - discriminate.
  - intros (a' & Ha & _). discriminate.
Qed.

Lemma bind_value_error {A B} (m : result A) (f : A -> result B) :
  (forall e, m = Raise e -> exists msg, e = ValueError msg) ->
  (forall a, m = Ok a -> is_value_error (f a) = true) ->
  is_value_error (m ≫= f) = true.
Proof.
  intros Hraise Hok. destruct m as [a|e]; simpl.
  - apply Hok. reflexivity.
  - destruct (Hraise e eq_refl) as [msg ->]. reflexivity.
Qed.

(** ** The helpers *)

Lemma standardize_tuple_raises value n name e :
  standardize_tuple value n name = Raise e -> exists msg, e = ValueError msg.
Proof.
  unfold standardize_tuple. destruct value as [v|vs]; simpl.
  - destruct (forallb _ _); [discriminate |]. intros [= <-]. eauto.
  - destruct (bool_decide _); simpl.
    + destruct (forallb _ _); [discriminate |]. intros [= <-]. eauto.
    + intros [= <-]. eauto.
Qed.

Lemma standardize_tuple_ok value n name ms :
  standardize_tuple value n name = Ok ms ->
  ms = as_tuple value n /\ length ms = n /\ Forall (fun m => 0 < m) ms.
Proof.
  unfold standardize_tuple. intros Hst.
  apply bind_ok in Hst as (t & Ht & Hpos).
  destruct (forallb _ t) eqn:Hall; [| discriminate].
  injection Hpos as <-.
  assert (Forall (fun m => 0 < m) t) as Hforall.
  { apply Forall_forall. intros m Hm.
    rewrite forallb_forall in Hall. apply Z.ltb_lt, Hall.
    apply list_elem_of_In. exact Hm. }
  destruct value as [v|vs]; simpl in *.
  - injection Ht as <-. rewrite length_replicate. auto.
  - destruct (bool_decide (length vs = n)) eqn:Hlen; [| discriminate].
    injection Ht as <-. apply bool_decide_eq_true in Hlen. auto.
Qed.


Lemma layer_init_raises c n g e :
  layer_init c n g = Raise e -> exists msg, e = ValueError msg.
Proof.
  unfold layer_init. destruct n as [n|]; [| discriminate].
  destruct (bool_decide _); [intros [= <-]; eauto | discriminate].
Qed.

Lemma layer_init_ok c n g nm g' :
  layer_init c n g = Ok (nm, g') ->
  (n = Some nm /\ ("/"%char ∉ list_ascii_of_string nm) /\ g' = g) \/
  (n = None /\ uniquify c g = (nm, g')).
Proof.
  unfold layer_init. destruct n as [n|].
  - destruct (bool_decide ("/"%char ∈ list_ascii_of_string n)) eqn:Hs; [discriminate |].
    intros [= <- <-]. left. apply bool_decide_eq_false in Hs.
    split; [reflexivity |]. split; [exact Hs | reflexivity].
  - intros Hu. right. split; [reflexivity |]. congruence.
Qed.


Lemma standardize_data_format_ok s d :
  standardize_data_format s = Ok d ->
  d = lower s /\ (d = "channels_first" \/ d = "channels_last").
Proof.
  unfold standardize_data_format.
  destruct (bool_decide (lower s = "channels_first")) eqn:Hf;
    destruct (bool_decide (lower s = "channels_last")) eqn:Hl; simpl;
    try discriminate; intros [= <-]; split; try reflexivity.
  - left. apply bool_decide_eq_true in Hf. exact Hf.
  - left. apply bool_decide_eq_true in Hf. exact Hf.
  - right. apply bool_decide_eq_true in Hl. exact Hl.
Qed.


(** ** The constructor *)


(** What a layer that came out of the constructor looks like. *)
Lemma init_ok_inv g a self g' :
  __init__ g a = Ok (self, g') ->
  standardize_tuple (arg_modes a) (arg_rank a) "modes" = Ok (modes self) /\
  rank self = arg_rank a /\
  filters self = arg_filters a /\
  use_bias self = arg_use_bias a /\
  check_filters (filters self) = Ok tt /\
  data_format self = "channels_last".
Proof.
  unfold __init__. intros Hinit.
  apply bind_ok in Hinit as ([nm g1] & _ & Hinit).
  apply bind_ok in Hinit as (ms & Hms & Hinit).
  do 6 (apply bind_ok in Hinit as (? & _ & Hinit)).
  apply bind_ok in Hinit as (d & Hd & Hinit).
  do 2 (apply bind_ok in Hinit as (? & _ & Hinit)).
  apply bind_ok in Hinit as ([] & Hf & Hinit).
  apply bind_ok in Hinit as ([] & _ & Hinit).
  apply bind_ok in Hinit as ([] & Hcf & Hinit).
  injection Hinit as <- _. simpl.
  repeat split; try assumption.
  apply standardize_data_format_ok in Hd as [_ [-> | ->]]; [discriminate | reflexivity].
Qed.

(** The name of a layer that came out of the constructor, and the state
    Keras is left in. *)
Lemma init_ok_name g a self g' :
  __init__ g a = Ok (self, g') ->
  layer_init "base_spectral_conv" (arg_name a) g = Ok (name self, g').
Proof.
  unfold __init__. intros Hinit.
  apply bind_ok in Hinit as ([nm g1] & Hnm & Hinit).
  do 13 (apply bind_ok in Hinit as (? & _ & Hinit)).
  injection Hinit as <- <-. exact Hnm.
Qed.





Lemma check_modes_nonzero ms :
  Forall (fun m => m <> 0) ms -> check_modes ms = Ok tt.
Proof.
  intros Hnz. unfold check_modes, all_truthy.
  replace (forallb (fun v => negb (v =? 0)) ms) with true; [reflexivity |].
  symmetry. apply forallb_forall. intros m Hm.
  rewrite Forall_forall in Hnz. apply negb_true_iff, Z.eqb_neq, Hnz.
  apply list_elem_of_In. exact Hm.
Qed.

(** C10, as the code has it: [None] for [filters] is accepted wherever an
    integer is (the positivity check is skipped for it); the check of
    lines 55-59 by itself lets every tuple without a zero through, negative
    entries included; but a negative entry never reaches that check,
    because [standardize_tuple] on line 34 raises ValueError for every
    entry that is not positive. *)
Theorem init_acceptance_gaps (g : Keras.state) (a : init_args) :
  (forall f, is_ok (__init__ g (with_filters (Some f) a)) = true ->
             is_ok (__init__ g (with_filters None a)) = true) /\
  (forall ms, Forall (fun m => m <> 0) ms -> check_modes ms = Ok tt) /\
  (Exists (fun m => m < 0) (as_tuple (arg_modes a) (arg_rank a)) ->
   is_value_error (__init__ g a) = true).
Proof.
  split; [| split].
  - intros f. destruct a as [r f0 ms fmt ub ki bi kc bc kr br nm].
    unfold __init__, with_filters; simpl.
    destruct (layer_init "base_spectral_conv" nm g) as [[n g1]|]; simpl; [| discriminate].
    destruct (standardize_tuple ms r "modes") as [t|]; simpl; [| discriminate].
    destruct (get g1 Initializer ki); simpl; [| discriminate].
    destruct (get g1 Initializer bi); simpl; [| discriminate].
    destruct (get g1 Regularizer kr); simpl; [| discriminate].
    destruct (get g1 Regularizer br); simpl; [| discriminate].
    destruct (get g1 Constraint kc); simpl; [| discriminate].
    destruct (get g1 Constraint bc); simpl; [| discriminate].
    destruct (standardize_data_format fmt); simpl; [| discriminate].
    destruct (getattr_fft (if bool_decide (r = 1%nat) then "rfft" else "rfft" +:+ pretty r));
      simpl; [| discriminate].
    destruct (getattr_fft (if bool_decide (r = 1%nat) then "irfft" else "irfft" +:+ pretty r));
      simpl; [| discriminate].
    destruct (f <=? 0); simpl; [discriminate |].
    destruct (check_modes t) as [[]|]; simpl; [| discriminate].
    destruct (check_data_format _) as [[]|]; simpl; [| discriminate].
    reflexivity.
  - apply check_modes_nonzero.
  - intros Hneg. unfold __init__.
    apply bind_value_error; [intros ? ?; eapply layer_init_raises; eassumption |].
    intros [nm g1] _.
    apply bind_value_error; [intros ? ?; eapply standardize_tuple_raises; eassumption |].
    intros ms Hms. exfalso.
    apply standardize_tuple_ok in Hms as (-> & _ & Hpos).
    apply Exists_exists in Hneg as (m & Hm & Hlt).
    rewrite Forall_forall in Hpos. specialize (Hpos m Hm). lia.
Qed.

Lemma init_acceptance_gaps_witness :
  is_ok (__init__ Keras.initial (default_args 1 None (ModesSeq [4]))) = true /\
  check_modes [-4] = Ok tt /\
  is_value_error (__init__ Keras.initial (default_args 1 (Some 8) (ModesSeq [-4]))) = true.
Proof.
  split; [| split].
  - apply (proj1 (init_acceptance_gaps Keras.initial
                    (default_args 1 (Some 8) (ModesSeq [4]))) 8).
    vm_compute. reflexivity.
  - apply (proj1 (proj2 (init_acceptance_gaps Keras.initial
                           (default_args 1 (Some 8) (ModesSeq [-4]))))).
    constructor; [lia | constructor].
  - apply (proj2 (proj2 (init_acceptance_gaps Keras.initial
                           (default_args 1 (Some 8) (ModesSeq [-4]))))).
    simpl. apply Exists_cons_hd. lia.
Defined.

(** C10 as stated fails: a construction whose [modes] holds a negative
    integer does not succeed. *)
Lemma negative_modes_are_rejected :
  ~ (exists r, __init__ Keras.initial (default_args 1 (Some 8) (ModesSeq [-4])) = Ok r).
Proof. intros [r Hr]. vm_compute in Hr. discriminate. Qed.

(** ** Dispatch on the backend *)

(** [call] runs [forward] under tensorflow, the jax branch under jax, and
    raises NotImplementedError under any other backend. *)
Lemma call_dispatch {T : Type} `{Scalar T} (fft : fft_ops T) (self : BaseSpectralConv)
    (st : build_state) (w : weights T) (inputs : tensor T) (active : string) :
  call fft self st w "tensorflow" inputs
  = ('(y, grad) ← forward fft self st w inputs; Ok (WithGradient y grad)) /\
  call fft self st w "jax" inputs = (y ← call_jax fft self st w inputs; Ok (Plain y)) /\
  (active <> "tensorflow" -> active <> "jax" ->
   is_not_implemented (call fft self st w active inputs) = true).
Proof.
  split; [reflexivity |]. split; [reflexivity |].
  intros Htf Hjax. unfold call, backend_call, py_eq.
  rewrite !bool_decide_eq_false_2 by assumption. reflexivity.
Qed.

(** ** The forward mixing *)

(** C1: lines 305 and 306, and lines 410 and 411, are one and the same
    expression, [contract(xr, Wr) - contract(xi, Wi)]; so the real and the
    imaginary component that leave the mixing, and the padded spectra
    built from them, are equal in the tensorflow and in the jax path. *)
Theorem mixed_components_identical {T : Type} `{Scalar T}
    (fft : fft_ops T) (self : BaseSpectralConv) (st : build_state) (w : weights T)
    (xr xi inputs : tensor T) :
  let contract be x k := einsum be (einsum_op_forward st) [x; k] in
  let mixed be :=
    a ← contract be xr (_real_kernel w); b ← contract be xi (_imag_kernel w); sub a b in
  tf_y_hat_real_truncated st w xr xi = mixed Tensorflow /\
  tf_y_hat_imag_truncated st w xr xi = mixed Tensorflow /\
  jax_y_hat_real_truncated st w xr xi = mixed Jax /\
  jax_y_hat_imag_truncated st w xr xi = mixed Jax /\
  fst <$> tf_padded_spectrum fft self st w inputs = snd <$> tf_padded_spectrum fft self st w inputs /\
  fst <$> jax_padded_spectrum fft self st w inputs = snd <$> jax_padded_spectrum fft self st w inputs.
Proof.
  intros contract mixed.
  assert (forall yr, (fst <$> pad_and_bias self st w yr yr) = (snd <$> pad_and_bias self st w yr yr))
    as Hpad.
  { intros yr. unfold pad_and_bias.
    destruct (pad yr (pad_width st)) as [p|]; simpl; [| reflexivity].
    destruct (use_bias self); simpl; [| reflexivity].
    destruct (add_bias w p); simpl; reflexivity. }
  repeat split; try reflexivity.
  - unfold tf_padded_spectrum.
    destruct (truncated_spectrum fft self st inputs) as [[xr' xi']|]; simpl; [| reflexivity].
    change (tf_y_hat_imag_truncated st w xr' xi') with (tf_y_hat_real_truncated st w xr' xi').
    destruct (tf_y_hat_real_truncated st w xr' xi') as [yr|]; simpl; [| reflexivity].
    apply Hpad.
  - unfold jax_padded_spectrum.
    destruct (truncated_spectrum fft self st inputs) as [[xr' xi']|]; simpl; [| reflexivity].
    change (jax_y_hat_imag_truncated st w xr' xi') with (jax_y_hat_real_truncated st w xr' xi').
    destruct (jax_y_hat_real_truncated st w xr' xi') as [yr|]; simpl; [| reflexivity].
    apply Hpad.
Qed.

(** ** Serialization *)

Lemma get_config_lacks_misspelt_key (self : BaseSpectralConv) :
  get_config self !! "kernel_initialzer" = None.
Proof.
  unfold get_config, dict_update, base_get_config. simpl.
  repeat (rewrite lookup_insert_ne; [| discriminate]).
  apply lookup_empty.
Qed.

Lemma get_config_has_initializer (self : BaseSpectralConv) :
  get_config self !! "kernel_initializer" = Some (serialize (kernel_initializer self)).
Proof.
  unfold get_config, dict_update, base_get_config. simpl.
  repeat (rewrite lookup_insert_ne; [| discriminate]).
  apply lookup_insert_eq.
Qed.

(** C6 at every layer: [get_config] stores the kernel initializer under
    ["kernel_initializer"], and [from_config] pops ["kernel_initialzer"];
    so reading back a configuration raises KeyError, whatever the layer,
    whatever class [from_config] is called on and whatever state Keras is
    in. *)
Theorem from_config_get_config_raises (self : BaseSpectralConv) (cls_rank : option nat)
    (g : Keras.state) :
  get_config self !! "kernel_initializer" = Some (serialize (kernel_initializer self)) /\
  get_config self !! "kernel_initialzer" = None /\
  from_config g cls_rank (get_config self) = Raise (KeyError "kernel_initialzer").
Proof.
  split; [apply get_config_has_initializer |].
  split; [apply get_config_lacks_misspelt_key |].
  unfold from_config, dict_pop. rewrite get_config_lacks_misspelt_key. reflexivity.
Qed.

(** ** [build] *)

Lemma add_weight_defined (dims : list Z) :
  Forall (fun d => 0 <= d) dims -> add_weight (map Some dims) = Ok (map Z.to_nat dims).
Proof.
  intros Hdims. unfold add_weight.
  induction Hdims as [|d dims Hd _ IH]; simpl; [reflexivity |].
  apply Z.leb_le in Hd. rewrite Hd. simpl. rewrite IH. reflexivity.
Qed.



(** The comprehension of line 100 computes the plan of the specification. *)
Lemma pads_spatial (modes exts : list Z) (rest : list (option Z)) (k : nat) :
  length modes = length exts ->
  mapM_result (pad_entry (k + length modes))
    (enumerate_from k (zip modes (map Some exts ++ rest)))
  = Ok (spatial_pads modes exts).
Proof.
  revert exts k. induction modes as [|m ms IH]; intros exts k Hlen.
  - destruct exts; [reflexivity | discriminate].
  - destruct exts as [|s ss]; [discriminate |].
    injection Hlen as Hlen. cbn [map app zip zip_with enumerate_from mapM_result pad_entry].
    destruct ms as [|m' ms'].
    + destruct ss; [| discriminate]. simpl.
      replace (Z.of_nat k =? Z.of_nat (k + 1) - 1) with true
        by (symmetry; apply Z.eqb_eq; lia).
      reflexivity.
    + destruct ss as [|s' ss']; [discriminate |].
      replace (Z.of_nat k =? Z.of_nat (k + length (m :: m' :: ms')) - 1) with false
        by (symmetry; apply Z.eqb_neq; simpl length; lia).
      replace (k + length (m :: m' :: ms'))%nat with (S k + length (m' :: ms'))%nat
        by (simpl; lia).
      change (zip_with pair (m' :: ms') (map Some (s' :: ss') ++ rest))
        with (zip (m' :: ms') (map Some (s' :: ss') ++ rest)).
      cbn [mbind result_bind].
      rewrite (IH (s' :: ss') (S k) Hlen). reflexivity.
Qed.

Lemma spatial_pads_low (modes exts : list Z) :
  Forall (fun p => p.1 = 0) (spatial_pads modes exts).
Proof.
  revert exts. induction modes as [|m ms IH]; intros exts; [constructor |].
  destruct exts as [|s ss]; [destruct ms; constructor |].
  destruct ms as [|m' ms'].
  - destruct ss; repeat constructor.
  - simpl. constructor; [reflexivity |]. apply (IH ss).
Qed.

(** The test of line 102 on a plan whose low sides are all zero. *)
Lemma negative_pad_filter (pads : list (Z * Z)) :
  Forall (fun p => p.1 = 0) pads ->
  (List.filter (fun x => tuple_lt x (0, 0)) pads = [] <-> Forall (fun p => 0 <= p.2) pads).
Proof.
  induction 1 as [|[lo hi] pads Hlo _ IH]; simpl.
  - split; constructor.
  - simpl in Hlo. subst lo. unfold tuple_lt at 1. simpl.
    destruct (hi <? 0) eqn:Hhi.
    + split; [discriminate |]. intros Hall. inversion Hall as [|? ? Hle _]; subst.
      simpl in Hle. apply Z.ltb_lt in Hhi. lia.
    + rewrite IH. split.
      * intros Hall. constructor; [apply Z.ltb_ge in Hhi; exact Hhi | exact Hall].
      * intros Hall. inversion Hall; subst. assumption.
Qed.

Lemma last_item_snoc {A} (l : list A) (x : A) : last_item (l ++ [x]) = Ok x.
Proof. unfold last_item. rewrite last_snoc. reflexivity. Qed.

Lemma pop_last_seq (a k : nat) : pop_last (seq a (S k)) = Ok ((a + k)%nat, seq a k).
Proof.
  unfold pop_last. rewrite seq_S, last_snoc, removelast_last. reflexivity.
Qed.

Lemma build_channels_last (self : BaseSpectralConv) (batch : option Z) (exts : list Z)
    (channels : Z) :
  data_format self = "channels_last" ->
  length (modes self) = length exts ->
  build self None (batch :: map Some exts ++ [Some channels]) =
    if negb (bool_decide (List.filter (fun x => tuple_lt x (0, 0))
                            (spec_padding_plan (modes self) exts) = []))
    then Raise (ValueError "Too many modes for input shape!")
    else
      let kernel_shape := Some channels :: filters self :: map Some (modes self) in
      real_kernel ← add_weight kernel_shape;
      imag_kernel ← add_weight kernel_shape;
      bias ← (if use_bias self
              then Some <$> add_weight (filters self :: replicate (rank self) (Some 1))
              else Ok None);
      Ok (built_state self batch exts channels real_kernel imag_kernel bias).
Proof.
  intros Hfmt Hlen.
  assert (last_item (batch :: map Some exts ++ [Some channels]) = Ok (Some channels)) as Hlast.
  { change (batch :: map Some exts ++ [Some channels])
      with ((batch :: map Some exts) ++ [Some channels]).
    apply last_item_snoc. }
  assert (length (batch :: map Some exts ++ [Some channels]) = S (S (length exts))) as Hn.
  { simpl. rewrite length_app, length_map. simpl. lia. }
  assert (drop 1 (batch :: map Some exts ++ [Some channels]) = map Some exts ++ [Some channels])
    as Hdrop by reflexivity.
  unfold built_state.
  remember (batch :: map Some exts ++ [Some channels]) as input_shape eqn:Hshape.
  unfold build. rewrite Hfmt.
  change (bool_decide ("channels_last" = "channels_last")) with true. cbv iota.
  rewrite Hlast, Hn, Hdrop.
  cbn [mbind result_bind].
  rewrite (pop_last_seq 0 (S (length exts))).
  cbn [mbind result_bind].
  change (pop_at 1 (seq 0 (S (S (length exts)))))
    with (Ok (1%nat, [0%nat] ++ seq 2 (length exts))).
  cbn [mbind result_bind].
  unfold enumerate.
  pose proof (pads_spatial (modes self) exts [Some channels] 0 Hlen) as Hpads.
  simpl Nat.add in Hpads. rewrite Hpads.
  cbn [mbind result_bind].
  fold (spec_padding_plan (modes self) exts).
  destruct (negb _); [reflexivity |].
  change (pop_at 0 (seq 0 (S (S (length exts)))))
    with (Ok (0%nat, seq 1 (S (length exts)))).
  cbn [mbind result_bind].
  rewrite (pop_last_seq 1 (length exts)).
  cbn [mbind result_bind].
  destruct (add_weight (Some channels :: filters self :: map Some (modes self))) as [rk|];
    [| reflexivity].
  cbn [mbind result_bind].
  destruct (use_bias self);
    [destruct (add_weight (filters self :: replicate (rank self) (Some 1))) as [b|] |];
    reflexivity.
Qed.

Lemma map_Some_replicate (n : nat) (v : Z) :
  map Some (replicate n v) = replicate n (Some v).
Proof. induction n as [|n IH]; simpl; [reflexivity | rewrite IH; reflexivity]. Qed.

Lemma map_to_nat_replicate (n : nat) :
  map Z.to_nat (replicate n 1) = replicate n 1%nat.
Proof. induction n as [|n IH]; simpl; [reflexivity | rewrite IH; reflexivity]. Qed.

(** The plan for the three ranks. *)
Lemma spec_padding_plan_ranks (m1 m2 m3 s1 s2 s3 : Z) :
  spec_padding_plan [m1] [s1] = [(0, 0); (0, 0); (0, s1 / 2 + 1 - m1)] /\
  spec_padding_plan [m1; m2] [s1; s2]
  = [(0, 0); (0, 0); (0, s1 - m1); (0, s2 / 2 + 1 - m2)] /\
  spec_padding_plan [m1; m2; m3] [s1; s2; s3]
  = [(0, 0); (0, 0); (0, s1 - m1); (0, s2 - m2); (0, s3 / 2 + 1 - m3)].
Proof. repeat split; reflexivity. Qed.

Lemma plan_low (modes exts : list Z) :
  Forall (fun p => p.1 = 0) (spec_padding_plan modes exts).
Proof. unfold spec_padding_plan. repeat constructor. apply spatial_pads_low. Qed.




(** What a first [build] that returns has stored. *)
Lemma build_ok_inv (self : BaseSpectralConv) (input_shape : list (option Z)) (st : build_state) :
  build self None input_shape = Ok st ->
  einsum_op_backprop_weights st = None /\
  einsum_op_backprop_x st = None /\
  einsum_op_backprop_bias st = None /\
  (if use_bias self
   then Some <$> add_weight (filters self :: replicate (rank self) (Some 1))
   else Ok None) = Ok (bias_shape st).
Proof.
  unfold build. intros Hbuild.
  apply bind_ok in Hbuild as ([[channel_axis input_channel] axes_tr] & _ & Hbuild).
  apply bind_ok in Hbuild as (pads & _ & Hbuild).
  destruct (negb _); [discriminate |].
  apply bind_ok in Hbuild as (rk & _ & Hbuild).
  apply bind_ok in Hbuild as (ik & _ & Hbuild).
  apply bind_ok in Hbuild as (b & Hb & Hbuild).
  destruct axes_tr as [[[axes ta] ita]|]; [| discriminate].
  apply bind_ok in Hbuild as ([? fa] & _ & Hbuild).
  apply bind_ok in Hbuild as ([? fa'] & _ & Hbuild).
  injection Hbuild as <-. simpl. repeat split. exact Hb.
Qed.

Lemma add_weight_bias_shape (filters : option Z) (n : nat) (bs : list nat) :
  add_weight (filters :: replicate n (Some 1)) = Ok bs ->
  exists f, filters = Some (Z.of_nat f) /\ bs = f :: replicate n 1%nat.
Proof.
  intros Hadd. destruct filters as [f|]; [| discriminate].
  destruct (Z.leb_spec 0 f) as [Hf|Hf].
  - assert (Forall (fun d => 0 <= d) (f :: replicate n 1)) as Hdims.
    { constructor; [exact Hf |]. apply Forall_forall. intros x Hx.
      apply elem_of_replicate in Hx as [-> _]. lia. }
    apply add_weight_defined in Hdims. simpl in Hdims.
    rewrite map_Some_replicate in Hdims. rewrite Hdims in Hadd.
    injection Hadd as <-. exists (Z.to_nat f). split.
    + rewrite Z2Nat.id by exact Hf. reflexivity.
    + rewrite map_to_nat_replicate. reflexivity.
  - unfold add_weight in Hadd. simpl in Hadd.
    apply Z.leb_gt in Hf. rewrite Hf in Hadd. discriminate.
Qed.

(** ** Broadcasting the bias *)

Lemma broadcast_rev_ones (l : list nat) (f b : nat) :
  broadcast_rev (l ++ [f; b]) (replicate (length l) 1%nat ++ [f]) = Some (l ++ [f; b]).
Proof.
  induction l as [|x l IH]; simpl.
  - rewrite Nat.eqb_refl. reflexivity.
  - rewrite IH. destruct (x =? 1)%nat; reflexivity.
Qed.

Lemma rev_replicate {A} (n : nat) (x : A) : rev (replicate n x) = replicate n x.
Proof.
  induction n as [|n IH]; simpl; [reflexivity |].
  rewrite IH. clear IH. induction n as [|n IH]; simpl; [reflexivity |].
  rewrite IH. reflexivity.
Qed.

Lemma broadcast_bias_shape (b f : nat) (exts : list nat) :
  broadcast_shapes (b :: f :: exts) (f :: replicate (length exts) 1%nat) = Some (b :: f :: exts).
Proof.
  unfold broadcast_shapes. simpl rev. rewrite rev_replicate.
  rewrite <- (length_rev exts), <- app_assoc. simpl app.
  rewrite broadcast_rev_ones.
  rewrite rev_app_distr, rev_involutive. reflexivity.
Qed.

Lemma bcast_index_self (sh idx : list nat) :
  Forall2 lt idx sh -> bcast_index sh idx = idx.
Proof.
  intros Hlt. unfold bcast_index.
  rewrite (Forall2_length _ _ _ Hlt), Nat.sub_diag, drop_0.
  induction Hlt as [|i n idx sh Hin _ IH]; simpl; [reflexivity |].
  rewrite IH. destruct (n =? 1)%nat eqn:Hn; [| reflexivity].
  apply Nat.eqb_eq in Hn. f_equal. lia.
Qed.

Lemma zip_with_ones (ks : list nat) :
  zip_with (fun n i => if (n =? 1)%nat then 0%nat else i) (replicate (length ks) 1%nat) ks
  = replicate (length ks) 0%nat.
Proof. induction ks as [|k ks IH]; simpl; [reflexivity | rewrite IH; reflexivity]. Qed.

Lemma bcast_index_bias (f i o : nat) (ks : list nat) :
  (o < f)%nat ->
  bcast_index (f :: replicate (length ks) 1%nat) (i :: o :: ks) = o :: replicate (length ks) 0%nat.
Proof.
  intros Hof. unfold bcast_index. simpl length. rewrite length_replicate.
  replace (S (S (length ks)) - S (length ks))%nat with 1%nat by lia.
  simpl. rewrite zip_with_ones.
  destruct (f =? 1)%nat eqn:Hf; [| reflexivity].
  apply Nat.eqb_eq in Hf. f_equal. lia.
Qed.

(** C9: after a first [build] that returns, a layer with [use_bias] holds a
    bias of shape [(filters, 1, ..., 1)] with [rank] ones; added to any
    tensor of shape [(batch, filters, *extents)] with [rank] extents, it
    broadcasts: the sum is defined, keeps the shape of the tensor, and its
    entry at [(i, o, *ks)] is the entry of the tensor plus the bias of
    output channel [o]. This holds for every rank, 1, 2 and 3 among them. *)
Theorem bias_broadcasts {T : Type} `{Scalar T} (self : BaseSpectralConv)
    (input_shape : list (option Z)) (st : build_state) :
  build self None input_shape = Ok st ->
  use_bias self = true ->
  exists f : nat,
    filters self = Some (Z.of_nat f) /\
    bias_shape st = Some (f :: replicate (rank self) 1%nat) /\
    forall (w : weights T) (b y : tensor T) (batch : nat) (exts : list nat),
      bias w = Some b ->
      shape b = f :: replicate (rank self) 1%nat ->
      shape y = batch :: f :: exts ->
      length exts = rank self ->
      exists t, add_bias w y = Ok t /\ shape t = shape y /\
                forall (i o : nat) (ks : list nat),
                  (i < batch)%nat -> (o < f)%nat -> Forall2 lt ks exts ->
                  entry t (i :: o :: ks)
                  = sadd (entry y (i :: o :: ks)) (entry b (o :: replicate (rank self) 0%nat)).
Proof.
  intros Hbuild Hbias.
  apply build_ok_inv in Hbuild as (_ & _ & _ & Hb). rewrite Hbias in Hb.
  destruct (add_weight (filters self :: replicate (rank self) (Some 1))) as [bs|] eqn:Hadd;
    [| discriminate].
  injection Hb as Hb.
  apply add_weight_bias_shape in Hadd as (f & Hf & ->).
  exists f. split; [exact Hf |]. split; [symmetry; exact Hb |].
  intros w b y batch exts Hw Hsb Hsy Hlen.
  unfold add_bias, add, binop. rewrite Hw, Hsb, Hsy, <- Hlen, broadcast_bias_shape.
  eexists. split; [reflexivity |]. split; [reflexivity |].
  intros i o ks Hi Ho Hks. simpl entry.
  rewrite bcast_index_self by (repeat constructor; assumption).
  rewrite <- (Forall2_length _ _ _ Hks).
  rewrite bcast_index_bias by exact Ho. reflexivity.
Qed.

Lemma bias_broadcasts_witness :
  exists f : nat,
    filters conv1d = Some (Z.of_nat f) /\
    bias_shape conv1d_state = Some (f :: replicate (rank conv1d) 1%nat) /\
    forall (w : weights Q) (b y : tensor Q) (batch : nat) (exts : list nat),
      bias w = Some b ->
      shape b = f :: replicate (rank conv1d) 1%nat ->
      shape y = batch :: f :: exts ->
      length exts = rank conv1d ->
      exists t, add_bias w y = Ok t /\ shape t = shape y /\
                forall (i o : nat) (ks : list nat),
                  (i < batch)%nat -> (o < f)%nat -> Forall2 lt ks exts ->
                  entry t (i :: o :: ks)
                  = sadd (entry y (i :: o :: ks)) (entry b (o :: replicate (rank conv1d) 0%nat)).
Proof.
  apply (bias_broadcasts (T := Q) conv1d [Some 1; Some 4; Some 1] conv1d_state).
  - reflexivity.
  - reflexivity.
Defined.

(** ** The spectral shift *)

Lemma bind_Ok_r {A} (m : result A) : (m ≫= Ok) = m.
Proof. destruct m; reflexivity. Qed.

(** On a tensor with two axes more than the layer has modes, the loop of
    [rfft_shift] runs once: it rolls the axis whose number is the rank, by
    the first mode count. *)
Lemma rfft_shift_single_roll {T : Type} (self : BaseSpectralConv) (x : tensor T)
    (m : Z) (ms : list Z) :
  modes self = m :: ms ->
  ndim x = (length (modes self) + 2)%nat ->
  rfft_shift self x = roll x (- m / 2) (length (modes self)).
Proof.
  intros Hmodes Hndim. unfold rfft_shift, range. rewrite Hndim.
  replace (length (modes self) + 2 - 1 - length (modes self))%nat with 1%nat by lia.
  rewrite Hmodes. simpl. apply bind_Ok_r.
Qed.

(** C5 on the code: with rank 1 the shift rolls axis 1, the channel axis
    (an input with three channels leaves the transform with its channels
    rotated: (2, 2, 3, 3, 1, 1) where the unshifted spectrum is
    (1, 1, 2, 2, 3, 3)); with rank 3 and modes (2, 4, 2) it rolls axis 3
    alone, by [-2 // 2 = -1], the count of the first mode, and leaves
    axis 2 as it is. *)
Theorem rfft_shift_rolls_one_axis :
  fst <$> __init__ Keras.initial (default_args 1 (Some 1) (ModesSeq [2])) = Ok conv1d /\
  build conv1d None [Some 1; Some 4; Some 3] = Ok conv1d_state3 /\
  observe <$> rfft_shift conv1d (integers [1; 3; 3]%nat [1; 2; 3; 4; 5; 6; 7; 8; 9])
  = Ok ([1; 3; 3]%nat, [4; 5; 6; 7; 8; 9; 1; 2; 3]%Q) /\
  (fun s => observe s.1) <$> truncated_spectrum ExactFFT.ops conv1d conv1d_state3 input3
  = Ok ([1; 3; 2]%nat, [2; 2; 3; 3; 1; 1]%Q) /\
  (fun s => observe s.1) <$> rfft ExactFFT.ops conv1d_state3 input3
  = Ok ([1; 3; 3]%nat, [1; 1; 1; 2; 2; 2; 3; 3; 3]%Q) /\
  fst <$> __init__ Keras.initial (default_args 3 (Some 1) (ModesSeq [2; 4; 2])) = Ok conv3d /\
  observe <$> rfft_shift conv3d (integers [1; 1; 2; 4; 1]%nat [0; 1; 2; 3; 4; 5; 6; 7])
  = Ok ([1; 1; 2; 4; 1]%nat, [1; 2; 3; 0; 5; 6; 7; 4]%Q) /\
  observe <$> rfft_shift conv3d (integers [1; 1; 2; 4; 1]%nat [0; 1; 2; 3; 4; 5; 6; 7])
  = observe <$> roll (integers [1; 1; 2; 4; 1]%nat [0; 1; 2; 3; 4; 5; 6; 7]) (-1) 3.
Proof. repeat split; vm_compute; reflexivity. Qed.

Lemma alter_twice {A} (f : A -> A) (i : nat) (l : list A) :
  alter f i (alter f i l) = alter (fun x => f (f x)) i l.
Proof.
  revert i. induction l as [|x l IH]; intros [|i]; simpl; try reflexivity.
  f_equal. apply IH.
Qed.

(** Two rolls by the same shift are one roll by twice the shift: the
    forward shift followed by the shift of the reconstruction. *)
Lemma roll_twice {T : Type} (x y z : tensor T) (shift : Z) (axis : nat) :
  roll x shift axis = Ok y ->
  roll y shift axis = Ok z ->
  exists z', roll x (2 * shift) axis = Ok z' /\ shape z = shape z' /\
             forall idx, entry z idx = entry z' idx.
Proof.
  unfold roll. intros Hy Hz.
  destruct (shape x !! axis) as [n|] eqn:Hn; [| discriminate].
  injection Hy as <-. simpl in Hz. rewrite Hn in Hz. injection Hz as <-.
  eexists. split; [reflexivity |]. split; [reflexivity |].
  intros idx. simpl. rewrite alter_twice. f_equal.
  revert axis Hn. generalize (shape x). clear x.
  induction idx as [|j idx IH]; intros sh axis Hn; destruct axis as [|axis]; simpl;
    try reflexivity.
  - f_equal. destruct n as [|n].
    + rewrite !Z.mod_0_r. lia.
    + rewrite Z2Nat.id by (apply Z.mod_pos_bound; lia).
      f_equal. rewrite Zminus_mod_idemp_l. f_equal. lia.
  - f_equal. destruct sh as [|s sh]; [discriminate |]. simpl in Hn.
    apply (IH sh axis Hn).
Qed.

(** C4 on the code: the reconstruction calls the same [rfft_shift] as the
    forward pass, a roll by [-modes[0] // 2 = -1] again for modes (2, 2);
    on a frequency tensor with four rows the forward and the reconstruction
    shift together move every row by two places instead of giving the
    tensor back. *)
Theorem reconstruction_shift_is_forward_shift :
  let y_hat := integers [1; 1; 4; 2]%nat [0; 1; 2; 3; 4; 5; 6; 7] in
  fst <$> __init__ Keras.initial (default_args 2 (Some 1) (ModesSeq [2; 2])) = Ok conv2d /\
  (forall (fft : fft_ops Q) (st : build_state),
     reconstruct fft conv2d st (y_hat, y_hat)
     = (y_hat_real ← roll y_hat (-1) 2;
        y_hat_imag ← roll y_hat (-1) 2;
        irfft fft st (y_hat_real, y_hat_imag))) /\
  observe <$> rfft_shift conv2d y_hat = Ok ([1; 1; 4; 2]%nat, [2; 3; 4; 5; 6; 7; 0; 1]%Q) /\
  observe <$> (shifted ← rfft_shift conv2d y_hat; rfft_shift conv2d shifted)
  = Ok ([1; 1; 4; 2]%nat, [4; 5; 6; 7; 0; 1; 2; 3]%Q) /\
  observe y_hat = ([1; 1; 4; 2]%nat, [0; 1; 2; 3; 4; 5; 6; 7]%Q).
Proof.
  intros y_hat. split; [vm_compute; reflexivity |].
  split; [| repeat split; vm_compute; reflexivity].
  intros fft st. reflexivity.
Qed.

(** ** Bias and zero padding *)

(** Lines 308 and 313 in general: padding first and adding the bias next
    leaves, at every index outside the window of the truncated tensor, the
    bias itself (added to the zero the padding wrote). *)
Lemma bias_outside_window {T : Type} `{Scalar T} (st : build_state)
    (w : weights T) (y_hat_truncated padded y_hat b : tensor T) (idx : list nat) :
  pad y_hat_truncated (pad_width st) = Ok padded ->
  bias w = Some b ->
  add_bias w padded = Ok y_hat ->
  Forall2 lt idx (shape padded) ->
  forallb (fun q => (Z.to_nat q.2.2.1 <=? q.1)%nat && (q.1 <? Z.to_nat q.2.2.1 + q.2.1)%nat)
    (zip idx (zip (shape y_hat_truncated) (pad_width st))) = false ->
  entry y_hat idx = sadd szero (entry b (bcast_index (shape b) idx)).
Proof.
  intros Hpad Hb Hadd Hidx Hout.
  unfold add_bias in Hadd. rewrite Hb in Hadd. unfold add, binop in Hadd.
  destruct (broadcast_shapes (shape padded) (shape b)) as [sh|]; [| discriminate].
  injection Hadd as <-. simpl.
  rewrite (bcast_index_self _ _ Hidx).
  unfold pad in Hpad.
  destruct (negb _); [discriminate |].
  destruct (existsb _ _); [discriminate |].
  injection Hpad as <-. simpl. rewrite Hout. reflexivity.
Qed.

(** C3 on the code: the bias is added after the padding. With two modes
    kept out of three frequencies and a bias of 1, the coefficient outside
    the window is 1, not 0, in both components and in both paths, when the
    tensors enter the shift of lines 316-318 (421-423). *)
Theorem bias_is_added_after_padding :
  fst <$> __init__ Keras.initial (default_args 1 (Some 1) (ModesSeq [2])) = Ok conv1d /\
  build conv1d None [Some 1; Some 4; Some 1] = Ok conv1d_state /\
  (fun s => (observe s.1, observe s.2)) <$>
    tf_padded_spectrum ExactFFT.ops conv1d conv1d_state weights1 input1
  = Ok (([1; 1; 3]%nat, [7; 18; 1]%Q), ([1; 1; 3]%nat, [7; 18; 1]%Q)) /\
  (fun s => (observe s.1, observe s.2)) <$>
    jax_padded_spectrum ExactFFT.ops conv1d conv1d_state weights1 input1
  = Ok (([1; 1; 3]%nat, [7; 18; 1]%Q), ([1; 1; 3]%nat, [7; 18; 1]%Q)) /\
  (fun s => observe s.1) <$> truncated_spectrum ExactFFT.ops conv1d conv1d_state input1
  = Ok ([1; 1; 2]%nat, [3; 1]%Q) /\
  pad_width conv1d_state = [(0, 0); (0, 0); (0, 1)].
Proof. repeat split; vm_compute; reflexivity. Qed.

(** ** The manual backward pass *)

(** The transforms of the exact instance invert each other on length 4. *)
Lemma exact_transforms_round_trip (a b c d : Q) :
  match ExactFFT.rfft (of_list [1; 4]%nat [a; b; c; d]) ≫= ExactFFT.irfft with
  | Ok y => Forall2 Qeq (to_list y) [a; b; c; d]
  | Raise _ => False
  end.
Proof.
  cbv -[Qplus Qmult Qminus Qeq Qopp Qinv inject_Z].
  repeat constructor; cbv [Qeq Qplus Qmult Qminus Qopp Qnum Qden];
    destruct a, b, c, d; simpl; lia.
Qed.

(** After a first [build] the three backward contractions are not
    assigned (line 175 compares the function [backend] with a string), so
    the registered gradient never returns. *)
Lemma backprop_unavailable {T : Type} `{Scalar T} (fft : fft_ops T) (self : BaseSpectralConv)
    (input_shape : list (option Z)) (st : build_state) (w : weights T)
    (x_hat_real_truncated x_hat_imag_truncated dy : tensor T) :
  build self None input_shape = Ok st ->
  is_ok (backprop fft self st w x_hat_real_truncated x_hat_imag_truncated dy) = false.
Proof.
  intros Hbuild. apply build_ok_inv in Hbuild as (Hw & _ & _ & _).
  unfold backprop. rewrite Hw.
  destruct (rfft fft st dy) as [[dr di]|]; simpl; [| reflexivity].
  destruct (rfft_shift self dr) as [sr|]; simpl; [| reflexivity].
  destruct (rfft_shift self di) as [si|]; simpl; [| reflexivity].
  destruct (getitem sr (mode_truncation_slice st)); simpl; [| reflexivity].
  destruct (getitem si (mode_truncation_slice st)); simpl; reflexivity.
Qed.

(** C2 on the code, for [BaseSpectralConv(rank=1, filters=1, modes=(2,))]
    built on [(1, 4, 1)], real kernel (2, 3), imaginary kernel (5, 7),
    bias 1, input (1, 2, 0, 0) and upstream gradient (1, 0, 0, 0): the
    registered gradient raises AttributeError; and with the three
    contractions assigned as lines 178-180 would, it returns 2 for the
    bias, (3, 1) for the real kernel and (0, -2) for the imaginary kernel,
    where differentiating the forward pass gives 1, (3/4, 1/2) and (0, 1). *)
Theorem manual_gradient_diverges :
  fst <$> __init__ Keras.initial (default_args 1 (Some 1) (ModesSeq [2])) = Ok conv1d /\
  build conv1d None [Some 1; Some 4; Some 1] = Ok conv1d_state /\
  observe_gradients
    (registered_gradient ExactFFT.ops conv1d conv1d_state weights1 input1 dy1)
  = Raise (AttributeError "einsum_op_backprop_weights") /\
  observe_gradients
    (registered_gradient ExactFFT.ops conv1d (assign_backprop_ops conv1d conv1d_state)
       weights1 input1 dy1)
  = Ok (([1; 4; 1]%nat, [2; 4; -1; -3]%Q),
        [([1]%nat, [2]%Q); ([1; 1; 2]%nat, [3; 1]%Q); ([1; 1; 2]%nat, [0; -2]%Q)]) /\
  autodiff conv1d conv1d_state (constant real_kernel1) (constant imag_kernel1)
    (perturbed bias1 [0; 0]%nat) (constant input1) dy1 = Ok 1%Q /\
  autodiff conv1d conv1d_state (perturbed real_kernel1 [0; 0; 0]%nat) (constant imag_kernel1)
    (constant bias1) (constant input1) dy1 = Ok (3 # 4)%Q /\
  autodiff conv1d conv1d_state (perturbed real_kernel1 [0; 0; 1]%nat) (constant imag_kernel1)
    (constant bias1) (constant input1) dy1 = Ok (1 # 2)%Q /\
  autodiff conv1d conv1d_state (constant real_kernel1) (perturbed imag_kernel1 [0; 0; 0]%nat)
    (constant bias1) (constant input1) dy1 = Ok 0%Q /\
  autodiff conv1d conv1d_state (constant real_kernel1) (perturbed imag_kernel1 [0; 0; 1]%nat)
    (constant bias1) (constant input1) dy1 = Ok 1%Q.
Proof. repeat split; vm_compute; reflexivity. Qed.

(** * Further properties of the layer *)

(** ** The constructor's postconditions *)

(** X1: a layer the constructor returns is channels-last, has one positive
    mode per spatial axis, the tuple its [modes] argument stands for, and a
    [filters] that is [None] or positive; [rank], [filters] and [use_bias]
    are the arguments. A name that is given is kept, holds no ["/"], and
    leaves the state of Keras as it was; without a name the layer is called
    [base_spectral_conv] if Keras has not named such a layer before, and
    [base_spectral_conv_k] if it has named [k] of them, and the count goes
    up by one. An initializer given by name is one Keras knows. *)
Theorem init_postconditions (g : Keras.state) (a : init_args) (self : BaseSpectralConv)
    (g' : Keras.state) :
  __init__ g a = Ok (self, g') ->
  data_format self = "channels_last" /\
  modes self = as_tuple (arg_modes a) (arg_rank a) /\
  length (modes self) = rank self /\
  Forall (fun m => 0 < m) (modes self) /\
  (forall f, filters self = Some f -> 0 < f) /\
  rank self = arg_rank a /\
  filters self = arg_filters a /\
  use_bias self = arg_use_bias a /\
  (forall n, arg_name a = Some n ->
     name self = n /\ ("/"%char ∉ list_ascii_of_string n) /\ g' = g) /\
  (arg_name a = None ->
     name self = match object_name_uids g !! "base_spectral_conv" with
                 | Some k => "base_spectral_conv" +:+ "_" +:+ pretty k
                 | None => "base_spectral_conv"
                 end /\
     object_name_uids g' !! "base_spectral_conv"
     = Some (S (default 0%nat (object_name_uids g !! "base_spectral_conv"))) /\
     known g' = known g) /\
  (forall s, arg_kernel_initializer a = CStr s -> known g Initializer s = true) /\
  rfft_fn_name self = fft_name "rfft" (rank self) /\
  irfft_fn_name self = fft_name "irfft" (rank self).
Proof.
  intros Hinit.
  pose proof (init_ok_inv _ _ _ _ Hinit) as (Hms & Hrank & Hf & Hub & Hcf & Hfmt).
  pose proof (init_ok_name _ _ _ _ Hinit) as Hname.
  apply standardize_tuple_ok in Hms as (Hms & Hlen & Hpos).
  apply layer_init_ok in Hname as Hname'.
  assert (known g' = known g) as Hknown.
  { destruct Hname' as [(_ & _ & ->) | (_ & Hu)]; [reflexivity |].
    injection Hu as _ <-. reflexivity. }
  unfold __init__ in Hinit. rewrite Hname in Hinit. cbn [mbind result_bind] in Hinit.
  apply bind_ok in Hinit as (ms & _ & Hinit).
  apply bind_ok in Hinit as (ki & Hki & Hinit).
  do 5 (apply bind_ok in Hinit as (? & _ & Hinit)).
  apply bind_ok in Hinit as (d & _ & Hinit).
  apply bind_ok in Hinit as (rf & Hrf & Hinit).
  apply bind_ok in Hinit as (irf & Hirf & Hinit).
  do 3 (apply bind_ok in Hinit as ([] & _ & Hinit)).
  injection Hinit as Hself. rewrite <- Hself in *. simpl in *.
  unfold getattr_fft in Hrf, Hirf.
  destruct (bool_decide (_ ∈ fft_module_exports)) in Hrf; [| discriminate].
  destruct (bool_decide (_ ∈ fft_module_exports)) in Hirf; [| discriminate].
  injection Hrf as <-. injection Hirf as <-.
  repeat split; try assumption; try reflexivity.
  - intros f Hsome. rewrite Hsome in Hcf. unfold check_filters in Hcf.
    destruct (f <=? 0) eqn:Hle; [discriminate |]. apply Z.leb_gt in Hle. exact Hle.
  - destruct Hname' as [(Hn & _ & _) | (Hn & _)]; congruence.
  - destruct Hname' as [(Hn & Hs & _) | (Hn & _)]; [| congruence].
    assert (n = name self) as -> by congruence. exact Hs.
  - destruct Hname' as [(Hn & _ & Hg) | (Hn & _)]; [exact Hg | congruence].
  - destruct Hname' as [(Hn & _) | (_ & Hu)]; [congruence |].
    injection Hu as <- _. reflexivity.
  - destruct Hname' as [(Hn & _) | (_ & Hu)]; [congruence |].
    injection Hu as _ <-. cbn [object_name_uids]. apply lookup_insert_eq.
  - intros s Hs. rewrite Hs in Hki. cbn [get] in Hki. rewrite Hknown in Hki.
    destruct (known g Initializer s); [reflexivity | discriminate].
Qed.

Lemma init_postconditions_witness :
  data_format conv2d = "channels_last" /\
  modes conv2d = [2; 2] /\
  length (modes conv2d) = rank conv2d /\
  Forall (fun m => 0 < m) (modes conv2d) /\
  (forall f, filters conv2d = Some f -> 0 < f) /\
  rank conv2d = 2%nat /\
  filters conv2d = Some 1 /\
  use_bias conv2d = true /\
  (forall n, @None string = Some n ->
     name conv2d = n /\ ("/"%char ∉ list_ascii_of_string n) /\ named_once = Keras.initial) /\
  (@None string = None ->
     name conv2d = "base_spectral_conv" /\
     object_name_uids named_once !! "base_spectral_conv" = Some 1%nat /\
     known named_once = known Keras.initial) /\
  (forall s, CStr "he_normal" = CStr s -> known Keras.initial Initializer s = true) /\
  rfft_fn_name conv2d = fft_name "rfft" (rank conv2d) /\
  irfft_fn_name conv2d = fft_name "irfft" (rank conv2d).
Proof.
  exact (init_postconditions Keras.initial (default_args 2 (Some 1) (ModesSeq [2; 2])) conv2d
           named_once eq_refl).
Defined.

(** ** [compute_output_shape] *)

(** X2: for a layer the constructor returns, [compute_output_shape] needs no
    build; on a non-empty shape it keeps the length and every entry but the
    last, which becomes [filters]; on the empty shape it raises IndexError. *)
Theorem compute_output_shape_replaces_channels (g : Keras.state) (a : init_args)
    (self : BaseSpectralConv) (g' : Keras.state) (input_shape : list (option Z)) :
  __init__ g a = Ok (self, g') ->
  compute_output_shape self [] = Raise (IndexError "list assignment index out of range") /\
  (input_shape <> [] ->
   exists out, compute_output_shape self input_shape = Ok out /\
               length out = length input_shape /\
               last out = Some (filters self) /\
               forall i, (S i < length input_shape)%nat -> out !! i = input_shape !! i).
Proof.
  intros Hinit. apply init_ok_inv in Hinit as (_ & _ & _ & _ & _ & Hfmt).
  unfold compute_output_shape. rewrite Hfmt.
  change (bool_decide ("channels_last" = "channels_last")) with true. cbv iota.
  split; [reflexivity |].
  intros Hne. destruct input_shape as [|d ds] eqn:Hshape; [congruence |].
  rewrite <- Hshape. assert (input_shape <> []) as Hne' by (rewrite Hshape; discriminate).
  clear Hshape Hne d ds.
  destruct (exists_last Hne') as (front & c & ->).
  eexists. split; [reflexivity |].
  rewrite removelast_last. split; [| split].
  - rewrite !length_app. reflexivity.
  - apply last_snoc.
  - intros i Hi. rewrite length_app in Hi. simpl in Hi.
    rewrite !lookup_app_l by lia. reflexivity.
Qed.

Lemma compute_output_shape_replaces_channels_witness :
  exists out, compute_output_shape conv2d [None; Some 16; Some 16; Some 3] = Ok out /\
              length out = 4%nat /\
              last out = Some (Some 1) /\
              forall i, (S i < 4)%nat ->
                        out !! i = [None; Some 16; Some 16; Some 3] !! i.
Proof.
  apply (proj2 (compute_output_shape_replaces_channels Keras.initial
                  (default_args 2 (Some 1) (ModesSeq [2; 2])) conv2d named_once
                  [None; Some 16; Some 16; Some 3] eq_refl)).
  discriminate.
Defined.

(** ** [call] on the two backends *)

Lemma einsum_jax_extends {T : Type} `{Scalar T} (spec : string) (operands : list (tensor T))
    (y : tensor T) :
  einsum Tensorflow spec operands = Ok y -> einsum Jax spec operands = Ok y.
Proof.
  unfold einsum. destruct (parse_subscripts spec) as [[labels out]|]; [| discriminate].
  destruct (negb (bool_decide (length labels = length operands))); [discriminate |].
  destruct (negb (forallb _ (zip labels operands))); [discriminate |].
  destruct (consistent (label_sizes labels operands)); [intros Hy; exact Hy | discriminate].
Qed.

Lemma mixing_jax_extends {T : Type} `{Scalar T} (st : build_state) (w : weights T)
    (xr xi y : tensor T) :
  tf_y_hat_real_truncated st w xr xi = Ok y -> jax_y_hat_real_truncated st w xr xi = Ok y.
Proof.
  unfold tf_y_hat_real_truncated, jax_y_hat_real_truncated. intros Htf.
  apply bind_ok in Htf as (a & Ha & Htf). apply bind_ok in Htf as (b & Hb & Htf).
  rewrite (einsum_jax_extends _ _ _ Ha). cbn [mbind result_bind].
  rewrite (einsum_jax_extends _ _ _ Hb). exact Htf.
Qed.

(** X3: whatever the tensorflow branch of [call] returns, the jax branch
    returns for the same layer, state, weights, transforms and input; a
    backend that is neither raises NotImplementedError. The converse fails:
    on the three-channel input [(1, 2, 3), 0, 0, 0] the one-channel layer
    [conv1d] raises in the tensorflow branch, where the contraction does not
    accept three channels against one, and returns in the jax branch, where
    the kernel is stretched over the three channels. *)
Theorem jax_branch_extends_tensorflow_branch {T : Type} `{Scalar T} (fft : fft_ops T)
    (self : BaseSpectralConv) (st : build_state) (w : weights T) (inputs : tensor T)
    (active : string) :
  (forall r, call fft self st w "tensorflow" inputs = Ok r ->
             call fft self st w "jax" inputs = Ok (Plain (output r))) /\
  (active <> "tensorflow" -> active <> "jax" ->
   call fft self st w active inputs
   = Raise (NotImplementedError
              "The call method is only implemented for keras backends `'tensorflow'` and `'jax'`")) /\
  call ExactFFT.ops conv1d conv1d_state weights1 "tensorflow" input3
  = Raise (BackendError "einsum") /\
  observe <$> (output <$> call ExactFFT.ops conv1d conv1d_state weights1 "jax" input3)
  = Ok ([1; 4; 1]%nat, [13; -13 # 2; -6; 25 # 2]%Q).
Proof.
  split; [| split; [| split; vm_compute; reflexivity]].
  - intros r.
    change (call fft self st w "tensorflow" inputs)
      with ('(y, grad) ← forward fft self st w inputs; Ok (WithGradient y grad)).
    change (call fft self st w "jax" inputs)
      with (y ← call_jax fft self st w inputs; Ok (Plain y)).
    intros Hcall. apply bind_ok in Hcall as ([y grad] & Hfwd & Hr).
    injection Hr as <-. cbn [output].
    unfold forward in Hfwd. unfold call_jax.
    apply bind_ok in Hfwd as ([xr xi] & -> & Hfwd). cbn [mbind result_bind].
    apply bind_ok in Hfwd as (yr & Hyr & Hfwd).
    apply bind_ok in Hfwd as (yi & Hyi & Hfwd).
    change (tf_y_hat_imag_truncated st w xr xi) with (tf_y_hat_real_truncated st w xr xi) in Hyi.
    change (jax_y_hat_imag_truncated st w xr xi) with (jax_y_hat_real_truncated st w xr xi).
    rewrite Hyr in Hyi. injection Hyi as <-.
    rewrite (mixing_jax_extends _ _ _ _ _ Hyr). cbn [mbind result_bind].
    apply bind_ok in Hfwd as (y_hat & -> & Hfwd). cbn [mbind result_bind].
    apply bind_ok in Hfwd as (y' & -> & Hfwd). cbn [mbind result_bind].
    injection Hfwd as -> _. reflexivity.
  - intros Htf Hjax. unfold call, backend_call, py_eq.
    rewrite !bool_decide_eq_false_2 by assumption. reflexivity.
Qed.

Lemma jax_branch_extends_tensorflow_branch_witness :
  match call ExactFFT.ops conv1d conv1d_state weights1 "tensorflow" input1 with
  | Ok r => call ExactFFT.ops conv1d conv1d_state weights1 "jax" input1 = Ok (Plain (output r))
  | Raise _ => False
  end /\
  call ExactFFT.ops conv1d conv1d_state weights1 "torch" input1
  = Raise (NotImplementedError
             "The call method is only implemented for keras backends `'tensorflow'` and `'jax'`").
Proof.
  split.
  - destruct (call ExactFFT.ops conv1d conv1d_state weights1 "tensorflow" input1)
      as [r|e] eqn:Hr.
    + exact (proj1 (jax_branch_extends_tensorflow_branch ExactFFT.ops conv1d conv1d_state
                      weights1 input1 "torch") r Hr).
    + vm_compute in Hr. discriminate Hr.
  - apply (proj1 (proj2 (jax_branch_extends_tensorflow_branch ExactFFT.ops conv1d conv1d_state
                           weights1 input1 "torch"))); discriminate.
Defined.

(** ** The registered gradient after [build] *)

(** X4: whatever the layer and the input shape, a first [build] that returns
    has left the three backward contractions unassigned; so the gradient
    function [forward] registers never returns, and as soon as the upstream
    gradient passes the transform, shift and truncation it raises
    AttributeError for [einsum_op_backprop_weights]. *)
Theorem gradient_unavailable_after_build {T : Type} `{Scalar T} (fft : fft_ops T)
    (self : BaseSpectralConv) (input_shape : list (option Z)) (st : build_state)
    (w : weights T) (inputs dy : tensor T) :
  build self None input_shape = Ok st ->
  einsum_op_backprop_weights st = None /\
  einsum_op_backprop_x st = None /\
  einsum_op_backprop_bias st = None /\
  is_ok (registered_gradient fft self st w inputs dy) = false /\
  (forall y grad dy_hat,
     forward fft self st w inputs = Ok (y, grad) ->
     truncated_spectrum fft self st dy = Ok dy_hat ->
     grad dy = Raise (AttributeError "einsum_op_backprop_weights")).
Proof.
  intros Hbuild.
  pose proof (build_ok_inv _ _ _ Hbuild) as (Hw & Hx & Hb & _).
  repeat split; try assumption.
  - unfold registered_gradient, forward.
    destruct (truncated_spectrum fft self st inputs) as [[xr xi]|]; simpl; [| reflexivity].
    destruct (tf_y_hat_real_truncated st w xr xi); simpl; [| reflexivity].
    destruct (tf_y_hat_imag_truncated st w xr xi); simpl; [| reflexivity].
    destruct (pad_and_bias self st w _ _); simpl; [| reflexivity].
    destruct (reconstruct fft self st _); simpl; [| reflexivity].
    eapply backprop_unavailable. exact Hbuild.
  - intros y grad [dr di] Hfwd Hdy. unfold forward in Hfwd.
    apply bind_ok in Hfwd as ([xr xi] & _ & Hfwd).
    do 4 (apply bind_ok in Hfwd as (? & _ & Hfwd)).
    injection Hfwd as _ <-.
    unfold truncated_spectrum in Hdy.
    apply bind_ok in Hdy as ([r i] & Hrfft & Hdy).
    apply bind_ok in Hdy as (sr & Hsr & Hdy).
    apply bind_ok in Hdy as (si & Hsi & Hdy).
    apply bind_ok in Hdy as (tr & Htr & Hdy).
    apply bind_ok in Hdy as (ti & Hti & Hdy).
    unfold backprop. rewrite Hrfft. cbn [mbind result_bind].
    rewrite Hsr. cbn [mbind result_bind]. rewrite Hsi. cbn [mbind result_bind].
    rewrite Htr. cbn [mbind result_bind]. rewrite Hti. cbn [mbind result_bind].
    rewrite Hw. reflexivity.
Qed.

Lemma gradient_unavailable_after_build_witness :
  einsum_op_backprop_weights conv1d_state = None /\
  einsum_op_backprop_x conv1d_state = None /\
  einsum_op_backprop_bias conv1d_state = None /\
  is_ok (registered_gradient ExactFFT.ops conv1d conv1d_state weights1 input1 dy1) = false /\
  (forall y grad dy_hat,
     forward ExactFFT.ops conv1d conv1d_state weights1 input1 = Ok (y, grad) ->
     truncated_spectrum ExactFFT.ops conv1d conv1d_state dy1 = Ok dy_hat ->
     grad dy1 = Raise (AttributeError "einsum_op_backprop_weights")).
Proof.
  exact (gradient_unavailable_after_build ExactFFT.ops conv1d [Some 1; Some 4; Some 1]
           conv1d_state weights1 input1 dy1 eq_refl).
Defined.

(** ** A layer without bias *)

(** X5: with [use_bias] off, a first [build] allocates no bias, and neither
    path of [call] reads the bias: two sets of weights with the same
    kernels give the same output. *)
Theorem bias_unused_without_use_bias {T : Type} `{Scalar T} (fft : fft_ops T)
    (self : BaseSpectralConv) (input_shape : list (option Z)) (st : build_state)
    (w w' : weights T) (inputs : tensor T) :
  build self None input_shape = Ok st ->
  use_bias self = false ->
  _real_kernel w = _real_kernel w' ->
  _imag_kernel w = _imag_kernel w' ->
  bias_shape st = None /\
  call_jax fft self st w inputs = call_jax fft self st w' inputs /\
  fst <$> forward fft self st w inputs = fst <$> forward fft self st w' inputs.
Proof.
  intros Hbuild Hbias Hr Hi.
  apply build_ok_inv in Hbuild as (_ & _ & _ & Hb). rewrite Hbias in Hb.
  split; [injection Hb as <-; reflexivity |].
  assert (forall yr yi, pad_and_bias self st w yr yi = pad_and_bias self st w' yr yi) as Hpad.
  { intros yr yi. unfold pad_and_bias. rewrite Hbias. cbv iota. reflexivity. }
  assert (forall xr xi, tf_y_hat_real_truncated st w xr xi = tf_y_hat_real_truncated st w' xr xi)
    as Hmix.
  { intros xr xi. unfold tf_y_hat_real_truncated. rewrite Hr, Hi. reflexivity. }
  assert (forall xr xi, jax_y_hat_real_truncated st w xr xi = jax_y_hat_real_truncated st w' xr xi)
    as Hmix'.
  { intros xr xi. unfold jax_y_hat_real_truncated. rewrite Hr, Hi. reflexivity. }
  split.
  - unfold call_jax.
    destruct (truncated_spectrum fft self st inputs) as [[xr xi]|]; simpl; [| reflexivity].
    change (jax_y_hat_imag_truncated st w xr xi) with (jax_y_hat_real_truncated st w xr xi).
    change (jax_y_hat_imag_truncated st w' xr xi) with (jax_y_hat_real_truncated st w' xr xi).
    rewrite Hmix'.
    destruct (jax_y_hat_real_truncated st w' xr xi) as [yr|]; simpl; [| reflexivity].
    rewrite Hpad. reflexivity.
  - unfold forward.
    destruct (truncated_spectrum fft self st inputs) as [[xr xi]|]; simpl; [| reflexivity].
    change (tf_y_hat_imag_truncated st w xr xi) with (tf_y_hat_real_truncated st w xr xi).
    change (tf_y_hat_imag_truncated st w' xr xi) with (tf_y_hat_real_truncated st w' xr xi).
    rewrite Hmix.
    destruct (tf_y_hat_real_truncated st w' xr xi) as [yr|]; simpl; [| reflexivity].
    rewrite Hpad.
    destruct (pad_and_bias self st w' yr yr) as [y_hat|]; simpl; [| reflexivity].
    destruct (reconstruct fft self st y_hat);
      cbn [fmap result_fmap mbind result_bind fst]; reflexivity.
Qed.

Lemma bias_unused_without_use_bias_witness :
  let self := {| name := "base_spectral_conv"; rank := 1; filters := Some 1; modes := [2];
                 use_bias := false;
                 kernel_initializer := Some (KObject "he_normal");
                 bias_initializer := Some (KObject "zeros");
                 kernel_regularizer := None; bias_regularizer := None;
                 kernel_constraint := None; bias_constraint := None;
                 data_format := "channels_last";
                 rfft_fn_name := "rfft"; irfft_fn_name := "irfft" |} in
  let st := built_state self (Some 1) [4] 1 [1; 1; 2]%nat [1; 1; 2]%nat None in
  let w' := {| _real_kernel := real_kernel1; _imag_kernel := imag_kernel1; bias := None |} in
  bias_shape st = None /\
  call_jax ExactFFT.ops self st weights1 input1 = call_jax ExactFFT.ops self st w' input1 /\
  fst <$> forward ExactFFT.ops self st weights1 input1
  = fst <$> forward ExactFFT.ops self st w' input1.
Proof.
  intros self st w'.
  apply (bias_unused_without_use_bias ExactFFT.ops self [Some 1; Some 4; Some 1] st
           weights1 w' input1); reflexivity.
Defined.

(** ** [build] on shapes it cannot use *)

Lemma pads_unknown_extent (n : nat) (ms : list Z) (exts rest : list (option Z)) (k : nat) :
  length ms = length exts ->
  None ∈ exts ->
  exists msg, mapM_result (pad_entry n) (enumerate_from k (zip ms (exts ++ rest)))
              = Raise (TypeError msg).
Proof.
  revert exts k. induction ms as [|m ms IH]; intros exts k Hlen Hnone.
  - destruct exts; [| discriminate]. inversion Hnone.
  - destruct exts as [|s exts]; [discriminate |]. injection Hlen as Hlen.
    cbn [app zip zip_with enumerate_from mapM_result].
    destruct s as [s|].
    + apply elem_of_cons in Hnone as [Heq | Hnone]; [discriminate |].
      destruct (IH exts (S k) Hlen Hnone) as [msg Hmsg].
      exists msg. cbn [pad_entry mbind result_bind].
      change (zip_with pair ms (exts ++ rest)) with (zip ms (exts ++ rest)).
      rewrite Hmsg. reflexivity.
    + eexists. reflexivity.
Qed.

(** X6: for a layer the constructor returns, [build] raises IndexError on
    an input shape with fewer than two axes and TypeError when one of the
    spatial extents it needs is unknown ([None]); and on a layer that is
    already built it returns the stored state whatever shape it is given. *)
Theorem build_rejects_unusable_shapes (g : Keras.state) (a : init_args)
    (self : BaseSpectralConv) (g' : Keras.state) :
  __init__ g a = Ok (self, g') ->
  (forall input_shape, (length input_shape < 2)%nat ->
     exists msg, build self None input_shape = Raise (IndexError msg)) /\
  (forall batch channels exts, length exts = rank self -> None ∈ exts ->
     exists msg, build self None (batch :: exts ++ [channels]) = Raise (TypeError msg)) /\
  (forall st input_shape, build self (Some st) input_shape = Ok st).
Proof.
  intros Hinit. apply init_ok_inv in Hinit as (Hms & Hrank & _ & _ & _ & Hfmt).
  apply standardize_tuple_ok in Hms as (_ & Hlen & _).
  split; [| split].
  - intros input_shape Hshort. unfold build. rewrite Hfmt.
    change (bool_decide ("channels_last" = "channels_last")) with true. cbv iota.
    destruct input_shape as [|d [|d' ds]]; [| | simpl in Hshort; lia];
      eexists; reflexivity.
  - intros batch channels exts Hexts Hnone.
    assert (length (modes self) = length exts) as Hlen' by congruence.
    destruct (pads_unknown_extent (length (modes self)) (modes self) exts [channels] 0
                Hlen' Hnone) as [msg Hmsg].
    exists msg.
    assert (last_item (batch :: exts ++ [channels]) = Ok channels) as Hlast.
    { change (batch :: exts ++ [channels]) with ((batch :: exts) ++ [channels]).
      apply last_item_snoc. }
    assert (length (batch :: exts ++ [channels]) = S (S (length exts))) as Hn.
    { simpl. rewrite length_app. simpl. lia. }
    assert (drop 1 (batch :: exts ++ [channels]) = exts ++ [channels]) as Hdrop by reflexivity.
    remember (batch :: exts ++ [channels]) as input_shape eqn:Hshape.
    unfold build. rewrite Hfmt.
    change (bool_decide ("channels_last" = "channels_last")) with true. cbv iota.
    rewrite Hlast, Hn, Hdrop.
    cbn [mbind result_bind].
    rewrite (pop_last_seq 0 (S (length exts))).
    cbn [mbind result_bind].
    change (pop_at 1 (seq 0 (S (S (length exts)))))
      with (Ok (1%nat, [0%nat] ++ seq 2 (length exts))).
    cbn [mbind result_bind].
    unfold enumerate. rewrite Hmsg. reflexivity.
  - reflexivity.
Qed.

Lemma build_rejects_unusable_shapes_witness :
  (exists msg, build conv2d None [Some 3] = Raise (IndexError msg)) /\
  (exists msg, build conv2d None [None; Some 16; None; Some 3] = Raise (TypeError msg)) /\
  build conv2d (Some conv1d_state) [] = Ok conv1d_state.
Proof.
  pose proof (build_rejects_unusable_shapes Keras.initial
                (default_args 2 (Some 1) (ModesSeq [2; 2])) conv2d named_once eq_refl)
    as (Hshort & Hnone & Hbuilt).
  split; [| split].
  - apply (Hshort [Some 3]). simpl. lia.
  - apply (Hnone None (Some 3) [Some 16; None]); [reflexivity |].
    apply elem_of_cons. right. apply elem_of_cons. left. reflexivity.
  - apply (Hbuilt conv1d_state []).
Defined.

(** ** The layout transposes *)

Lemma index_of_here (j : nat) (l : list nat) : index_of j (j :: l) = 0%nat.
Proof. unfold index_of. simpl. rewrite decide_True by reflexivity. reflexivity. Qed.

Lemma index_of_further (j x : nat) (l : list nat) :
  x <> j -> j ∈ l -> index_of j (x :: l) = S (index_of j l).
Proof.
  intros Hne Hin. unfold index_of. simpl. rewrite decide_False by exact Hne.
  destruct (list_find (fun a => a = j) l) as [[i y]|] eqn:Hfind; [reflexivity |].
  exfalso. apply list_find_None in Hfind. rewrite Forall_forall in Hfind.
  exact (Hfind j Hin eq_refl).
Qed.

Lemma index_of_seq (a k j : nat) :
  (a <= j < a + k)%nat -> index_of j (seq a k) = (j - a)%nat.
Proof.
  revert a. induction k as [|k IH]; intros a Hj; [lia |].
  simpl seq. destruct (decide (a = j)) as [-> | Hne].
  - rewrite index_of_here. lia.
  - rewrite index_of_further; [| exact Hne | apply elem_of_seq; lia].
    rewrite IH by lia. lia.
Qed.

Lemma index_of_app_l (j : nat) (l r : list nat) :
  j ∈ l -> index_of j (l ++ r) = index_of j l.
Proof.
  induction l as [|x l IH]; intros Hin; [inversion Hin |].
  simpl app. destruct (decide (x = j)) as [-> | Hne].
  - rewrite !index_of_here. reflexivity.
  - apply elem_of_cons in Hin as [-> | Hin]; [congruence |].
    rewrite !index_of_further; [| exact Hne | exact Hin | exact Hne | apply elem_of_app; left; exact Hin].
    rewrite IH by exact Hin. reflexivity.
Qed.

Lemma index_of_app_r (j : nat) (l : list nat) :
  j ∉ l -> index_of j (l ++ [j]) = length l.
Proof.
  induction l as [|x l IH]; intros Hnin; simpl app.
  - apply index_of_here.
  - rewrite index_of_further.
    + rewrite IH; [reflexivity |]. intros Hin. apply Hnin. apply elem_of_cons. right. exact Hin.
    + intros ->. apply Hnin. apply elem_of_cons. left. reflexivity.
    + apply elem_of_app. right. apply elem_of_cons. left. reflexivity.
Qed.

Lemma map_nth_seq {A} (d : A) (l r : list A) (a : nat) :
  map (fun j => nth (j - a) (l ++ r) d) (seq a (length l)) = l.
Proof.
  revert a. induction l as [|x l IH]; intros a; [reflexivity |].
  simpl length. simpl seq. simpl map. rewrite Nat.sub_diag. simpl nth at 1. f_equal.
  rewrite <- (IH (S a)) at 2. apply map_ext_in. intros j Hj.
  apply in_seq in Hj. replace (j - a)%nat with (S (j - S a)) by lia. reflexivity.
Qed.

(** Where the forward transpose reads an index of the canonical layout. *)
Lemma permute_forward {A} (d : A) (i ch : A) (ks : list A) :
  map (fun j => nth (index_of j (0 :: S (length ks) :: seq 1 (length ks))%nat) (i :: ch :: ks) d)
    (seq 0 (S (S (length ks))))
  = i :: ks ++ [ch].
Proof.
  replace (seq 0 (S (S (length ks)))) with (0%nat :: seq 1 (length ks) ++ [S (length ks)]).
  2:{ change (0%nat :: seq 1 (length ks) ++ [S (length ks)])
        with ((0%nat :: seq 1 (length ks)) ++ [S (length ks)]).
      change (0%nat :: seq 1 (length ks)) with (seq 0 (S (length ks))).
      rewrite <- seq_S. reflexivity. }
  cbn [map]. rewrite index_of_here. cbn [nth]. f_equal.
  rewrite map_app. f_equal.
  - rewrite <- (map_nth_seq d ks [] 1) at 2. apply map_ext_in. intros j Hj.
    apply in_seq in Hj.
    rewrite index_of_further; [| lia | apply elem_of_cons; right; apply elem_of_seq; lia].
    rewrite index_of_further; [| lia | apply elem_of_seq; lia].
    rewrite index_of_seq by lia. rewrite app_nil_r. reflexivity.
  - cbn [map]. rewrite index_of_further;
      [| lia | apply elem_of_cons; left; reflexivity].
    rewrite index_of_here. reflexivity.
Qed.

(** Where the inverse transpose reads an index of the channels-last layout. *)
Lemma permute_inverse {A} (d : A) (i ch : A) (ks : list A) :
  map (fun j => nth (index_of j (0 :: seq 2 (length ks) ++ [1])%nat) (i :: ks ++ [ch]) d)
    (seq 0 (S (S (length ks))))
  = i :: ch :: ks.
Proof.
  cbn [seq map]. rewrite index_of_here. cbn [nth]. f_equal.
  assert (index_of 1 (0 :: seq 2 (length ks) ++ [1])%nat = S (length ks)) as H1.
  { rewrite index_of_further;
      [| lia | apply elem_of_app; right; apply elem_of_cons; left; reflexivity].
    rewrite index_of_app_r; [rewrite length_seq; reflexivity |].
    intros Hin. apply elem_of_seq in Hin. lia. }
  rewrite H1. f_equal.
  - simpl. rewrite app_nth2 by lia. rewrite Nat.sub_diag. reflexivity.
  - rewrite <- (map_nth_seq d ks [ch] 2) at 2. apply map_ext_in. intros j Hj.
    apply in_seq in Hj.
    rewrite index_of_further;
      [| lia | apply elem_of_app; left; apply elem_of_seq; lia].
    rewrite index_of_app_l by (apply elem_of_seq; lia).
    rewrite index_of_seq by lia. reflexivity.
Qed.

Lemma build_transposes (self : BaseSpectralConv) (input_shape : list (option Z))
    (st : build_state) :
  build self None input_shape = Ok st ->
  exists k, length input_shape = S (S k) /\
            transpose_axes st = (0 :: S k :: seq 1 k)%nat /\
            inverse_transpose_axes st = (0 :: seq 2 k ++ [1])%nat.
Proof.
  unfold build. intros Hbuild.
  apply bind_ok in Hbuild as ([[channel_axis input_channel] axes_tr] & Haxes & Hbuild).
  apply bind_ok in Hbuild as (pads & _ & Hbuild).
  destruct (negb _); [discriminate |].
  do 3 (apply bind_ok in Hbuild as (? & _ & Hbuild)).
  destruct axes_tr as [[[axes ta] ita]|]; [| discriminate].
  apply bind_ok in Hbuild as ([? fa] & _ & Hbuild).
  apply bind_ok in Hbuild as ([? fa'] & _ & Hbuild).
  injection Hbuild as <-. simpl.
  destruct (bool_decide (data_format self = "channels_last"));
    [| destruct (input_shape !! 1%nat); discriminate].
  apply bind_ok in Haxes as (ic & _ & Haxes).
  apply bind_ok in Haxes as ([c rest] & Hpop & Haxes).
  apply bind_ok in Haxes as ([c' rest'] & Hpop1 & Haxes).
  injection Haxes as _ _ _ <- <-.
  destruct (length input_shape) as [|[|k]]; [discriminate | discriminate |].
  exists k. split; [reflexivity |].
  rewrite (pop_last_seq 0 (S k)) in Hpop. injection Hpop as <- <-.
  injection Hpop1 as <- <-. split; reflexivity.
Qed.

Lemma transpose_layouts {T : Type} (self : BaseSpectralConv)
    (input_shape : list (option Z)) (st : build_state) (x : tensor T)
    (b c : nat) (sp : list nat) :
  build self None input_shape = Ok st ->
  S (S (length sp)) = length input_shape ->
  (shape x = b :: sp ++ [c] ->
   exists t, transpose (transpose_axes st) x = Ok t /\ shape t = b :: c :: sp /\
             forall i ch ks, length ks = length sp ->
                             entry t (i :: ch :: ks) = entry x (i :: ks ++ [ch])) /\
  (shape x = b :: c :: sp ->
   exists t, transpose (inverse_transpose_axes st) x = Ok t /\ shape t = b :: sp ++ [c] /\
             forall i ch ks, length ks = length sp ->
                             entry t (i :: ks ++ [ch]) = entry x (i :: ch :: ks)).
Proof.
  intros Hbuild Hlen.
  apply build_transposes in Hbuild as (k & Hk & -> & ->).
  assert (k = length sp) as -> by lia. clear Hk Hlen.
  split; intros Hshape; unfold transpose, ndim; rewrite Hshape.
  - replace (length (b :: sp ++ [c])) with (S (S (length sp)))
      by (simpl; rewrite length_app; simpl; lia).
    replace (bool_decide (length (0 :: S (length sp) :: seq 1 (length sp))%nat
                          = S (S (length sp)))) with true
      by (symmetry; apply bool_decide_eq_true; simpl; rewrite length_seq; reflexivity).
    replace (forallb _ (seq 0 (S (S (length sp))))) with true.
    2:{ symmetry. apply forallb_forall. intros j Hj. apply in_seq in Hj.
        apply bool_decide_eq_true.
        destruct (decide (j = 0%nat)) as [-> | H0]; [apply elem_of_cons; left; reflexivity |].
        apply elem_of_cons; right.
        destruct (decide (j = S (length sp))) as [-> | HS];
          [apply elem_of_cons; left; reflexivity |].
        apply elem_of_cons; right. apply elem_of_seq. lia. }
    simpl andb. cbv iota. eexists. split; [reflexivity |]. split.
    + simpl shape. simpl map. f_equal. f_equal.
      * rewrite app_nth2 by lia. rewrite Nat.sub_diag. reflexivity.
      * rewrite <- (map_nth_seq 0%nat sp [c] 1) at 2. apply map_ext_in. intros j Hj.
        apply in_seq in Hj. replace j with (S (j - 1)) at 1 by lia. reflexivity.
    + intros i ch ks Hks. cbn [entry]. rewrite <- Hks. rewrite permute_forward. reflexivity.
  - replace (length (b :: c :: sp)) with (S (S (length sp))) by reflexivity.
    replace (bool_decide (length (0 :: seq 2 (length sp) ++ [1])%nat = S (S (length sp))))
      with true
      by (symmetry; apply bool_decide_eq_true; simpl; rewrite length_app, length_seq;
          simpl; lia).
    replace (forallb _ (seq 0 (S (S (length sp))))) with true.
    2:{ symmetry. apply forallb_forall. intros j Hj. apply in_seq in Hj.
        apply bool_decide_eq_true.
        destruct (decide (j = 0%nat)) as [-> | H0]; [apply elem_of_cons; left; reflexivity |].
        apply elem_of_cons; right. apply elem_of_app.
        destruct (decide (j = 1%nat)) as [-> | H1];
          [right; apply elem_of_cons; left; reflexivity |].
        left. apply elem_of_seq. lia. }
    simpl andb. cbv iota. eexists. split; [reflexivity |]. split.
    + simpl shape. simpl map. f_equal. rewrite map_app. simpl map. f_equal.
      rewrite <- (map_nth_seq 0%nat sp [] 2) at 2. apply map_ext_in. intros j Hj.
      apply in_seq in Hj. replace j with (S (S (j - 2))) at 1 by lia.
      rewrite app_nil_r. reflexivity.
    + intros i ch ks Hks. cbn [entry]. rewrite <- Hks. rewrite permute_inverse. reflexivity.
Qed.

(** X7: the transpose [build] prepares brings a channels-last tensor
    [(batch, *spatial, channels)] to the layout [(batch, channels, *spatial)]
    the transforms work on, entry for entry; the inverse transpose brings
    [(batch, channels, *spatial)] back to channels-last. *)
Theorem transposes_move_the_channel_axis {T : Type} (self : BaseSpectralConv)
    (input_shape : list (option Z)) (st : build_state) (x : tensor T)
    (b c : nat) (sp : list nat) :
  build self None input_shape = Ok st ->
  S (S (length sp)) = length input_shape ->
  (shape x = b :: sp ++ [c] ->
   exists t, transpose (transpose_axes st) x = Ok t /\ shape t = b :: c :: sp /\
             forall i ch ks, length ks = length sp ->
                             entry t (i :: ch :: ks) = entry x (i :: ks ++ [ch])) /\
  (shape x = b :: c :: sp ->
   exists t, transpose (inverse_transpose_axes st) x = Ok t /\ shape t = b :: sp ++ [c] /\
             forall i ch ks, length ks = length sp ->
                             entry t (i :: ks ++ [ch]) = entry x (i :: ch :: ks)).
Proof. apply transpose_layouts. Qed.

Lemma transposes_move_the_channel_axis_witness :
  (exists t, transpose (transpose_axes conv1d_state3) input3 = Ok t /\
             shape t = [1; 3; 4]%nat /\
             forall i ch ks, length ks = 1%nat ->
                             entry t (i :: ch :: ks) = entry input3 (i :: ks ++ [ch])) /\
  (exists t, transpose (inverse_transpose_axes conv1d_state3)
               (integers [1; 3; 4]%nat [1; 2; 3; 4; 5; 6; 7; 8; 9; 10; 11; 12]) = Ok t /\
             shape t = [1; 4; 3]%nat /\
             forall i ch ks, length ks = 1%nat ->
                             entry t (i :: ks ++ [ch])
                             = entry (integers [1; 3; 4]%nat [1; 2; 3; 4; 5; 6; 7; 8; 9; 10; 11; 12])
                                 (i :: ch :: ks)).
Proof.
  split.
  - apply (proj1 (transposes_move_the_channel_axis conv1d [Some 1; Some 4; Some 3]
                    conv1d_state3 input3 1 3 [4]%nat eq_refl eq_refl)).
    reflexivity.
  - apply (proj2 (transposes_move_the_channel_axis conv1d [Some 1; Some 4; Some 3]
                    conv1d_state3
                    (integers [1; 3; 4]%nat [1; 2; 3; 4; 5; 6; 7; 8; 9; 10; 11; 12])
                    1 3 [4]%nat eq_refl eq_refl)).
    reflexivity.
Defined.

(** X8: the two transposes [build] prepares are inverse to each other: on a
    tensor with as many axes as the input shape, the forward transpose
    followed by the inverse transpose (what [self.rfft] does first and
    [self.irfft] does last) gives back a tensor of the same shape with the
    same entries. *)
Theorem transposes_round_trip {T : Type} (self : BaseSpectralConv)
    (input_shape : list (option Z)) (st : build_state) (x : tensor T) :
  build self None input_shape = Ok st ->
  ndim x = length input_shape ->
  exists t x', transpose (transpose_axes st) x = Ok t /\
               transpose (inverse_transpose_axes st) t = Ok x' /\
               shape x' = shape x /\
               forall idx, length idx = ndim x -> entry x' idx = entry x idx.
Proof.
  intros Hbuild Hndim.
  destruct (build_transposes _ _ _ Hbuild) as (k & Hk & _ & _).
  unfold ndim in Hndim. rewrite Hk in Hndim.
  destruct (shape x) as [|b rest] eqn:Hshape; [discriminate |].
  assert (rest <> []) as Hrest by (intros ->; discriminate).
  destruct (exists_last Hrest) as (sp & c & ->).
  assert (S (S (length sp)) = length input_shape) as Hlen.
  { rewrite Hk. simpl in Hndim. rewrite length_app in Hndim. simpl in Hndim. lia. }
  destruct (proj1 (transpose_layouts self input_shape st x b c sp Hbuild Hlen) Hshape)
    as (t & Ht & Hst & Het).
  destruct (proj2 (transpose_layouts self input_shape st t b c sp Hbuild Hlen) Hst)
    as (x' & Hx' & Hsx' & Hex').
  exists t, x'. split; [exact Ht |]. split; [exact Hx' |]. split; [exact Hsx' |].
  intros idx Hidx. unfold ndim in Hidx. rewrite Hshape in Hidx.
  destruct idx as [|i tail]; [discriminate |].
  assert (tail <> []) as Htail.
  { intros ->. simpl in Hidx. rewrite length_app in Hidx. simpl in Hidx. lia. }
  destruct (exists_last Htail) as (ks & ch & ->).
  assert (length ks = length sp) as Hks.
  { simpl in Hidx. rewrite !length_app in Hidx. simpl in Hidx. lia. }
  rewrite (Hex' i ch ks Hks). apply (Het i ch ks Hks).
Qed.

Lemma transposes_round_trip_witness :
  exists t x', transpose (transpose_axes conv1d_state3) input3 = Ok t /\
               transpose (inverse_transpose_axes conv1d_state3) t = Ok x' /\
               shape x' = shape input3 /\
               forall idx, length idx = ndim input3 -> entry x' idx = entry input3 idx.
Proof.
  apply (transposes_round_trip conv1d [Some 1; Some 4; Some 3] conv1d_state3 input3);
    reflexivity.
Defined.

(** ** The spectral shift in general *)

Lemma roll_loop_shape {T : Type} (steps : list (nat * Z)) (x : tensor T) :
  Forall (fun am => (am.1 < ndim x)%nat) steps ->
  exists y, foldM_result (fun inputs am => roll inputs (- am.2 / 2) am.1) x steps = Ok y /\
            shape y = shape x.
Proof.
  revert x. induction steps as [|[a m] steps IH]; intros x Hsteps.
  - exists x. split; reflexivity.
  - inversion Hsteps as [|? ? Ha Hrest]; subst. simpl in Ha.
    destruct (lookup_lt_is_Some_2 (shape x) a Ha) as [n Hn].
    cbn [foldM_result fst snd].
    destruct (roll x (- m / 2) a) as [y0|] eqn:Hroll.
    2:{ unfold roll in Hroll. rewrite Hn in Hroll. discriminate. }
    assert (shape y0 = shape x) as Hy0.
    { unfold roll in Hroll. rewrite Hn in Hroll. injection Hroll as <-. reflexivity. }
    cbn [mbind result_bind].
    destruct (IH y0) as (y & Hy & Hshape).
    { unfold ndim. rewrite Hy0. exact Hrest. }
    exists y. split; [exact Hy | congruence].
Qed.

(** X9: [rfft_shift] never raises and keeps the shape of its input, for
    every layer and every tensor; on a tensor with at most one axis more
    than the layer has modes its loop is empty and the tensor comes back
    unchanged. *)
Theorem rfft_shift_keeps_shape {T : Type} (self : BaseSpectralConv) (x : tensor T) :
  (exists y, rfft_shift self x = Ok y /\ shape y = shape x) /\
  ((ndim x <= length (modes self) + 1)%nat -> rfft_shift self x = Ok x).
Proof.
  split.
  - unfold rfft_shift. apply roll_loop_shape.
    apply Forall_forall. intros [a m] Ham. simpl.
    apply elem_of_zip_l in Ham. unfold range in Ham. apply elem_of_seq in Ham. lia.
  - intros Hsmall. unfold rfft_shift, range.
    replace (ndim x - 1 - length (modes self))%nat with 0%nat by lia. reflexivity.
Qed.

Lemma rfft_shift_keeps_shape_witness :
  rfft_shift conv2d (integers [1; 2; 3]%nat [1; 2; 3; 4; 5; 6])
  = Ok (integers [1; 2; 3]%nat [1; 2; 3; 4; 5; 6]).
Proof.
  apply (proj2 (rfft_shift_keeps_shape conv2d (integers [1; 2; 3]%nat [1; 2; 3; 4; 5; 6]))).
  apply Nat.leb_le. reflexivity.
Defined.

Lemma alter_fixed (f : nat -> nat) (axis : nat) (idx sh : list nat) (n : nat) :
  Forall2 lt idx sh ->
  sh !! axis = Some n ->
  (forall j, (j < n)%nat -> f j = j) ->
  alter f axis idx = idx.
Proof.
  intros Hlt. revert axis. induction Hlt as [|i s idx sh His _ IH]; intros axis Hn Hf.
  - reflexivity.
  - destruct axis as [|axis]; simpl.
    + injection Hn as ->. rewrite Hf by exact His. reflexivity.
    + f_equal. apply IH; assumption.
Qed.

(** X10: on a tensor with two axes more than the layer has modes, the forward
    shift followed by the shift of the reconstruction is one roll by
    [2 * (-modes[0] // 2)] along the axis whose number is the rank; the two
    shifts cancel, entry for entry, when the extent of that axis divides
    that amount. *)
Theorem rfft_shift_twice {T : Type} (self : BaseSpectralConv) (x : tensor T)
    (m : Z) (ms : list Z) (n : nat) :
  modes self = m :: ms ->
  ndim x = (length (modes self) + 2)%nat ->
  shape x !! length (modes self) = Some n ->
  exists z z',
    (shifted ← rfft_shift self x; rfft_shift self shifted) = Ok z /\
    roll x (2 * (- m / 2)) (length (modes self)) = Ok z' /\
    shape z = shape x /\
    (forall idx, entry z idx = entry z' idx) /\
    ((Z.of_nat n | 2 * (- m / 2)) ->
     forall idx, Forall2 lt idx (shape x) -> entry z idx = entry x idx).
Proof.
  intros Hmodes Hndim Hn.
  rewrite (rfft_shift_single_roll self x m ms Hmodes Hndim).
  destruct (roll x (- m / 2) (length (modes self))) as [y|] eqn:Hy.
  2:{ unfold roll in Hy. rewrite Hn in Hy. discriminate. }
  cbn [mbind result_bind].
  assert (shape y = shape x) as Hsy.
  { unfold roll in Hy. rewrite Hn in Hy. injection Hy as <-. reflexivity. }
  assert (ndim y = (length (modes self) + 2)%nat) as Hndim' by (unfold ndim in *; congruence).
  rewrite (rfft_shift_single_roll self y m ms Hmodes Hndim').
  destruct (roll y (- m / 2) (length (modes self))) as [z|] eqn:Hz.
  2:{ unfold roll in Hz. rewrite Hsy, Hn in Hz. discriminate. }
  assert (shape z = shape x) as Hszx.
  { pose proof Hz as Hz2. unfold roll in Hz2. rewrite Hsy, Hn in Hz2.
    injection Hz2 as <-. reflexivity. }
  destruct (roll_twice x y z (- m / 2) (length (modes self)) Hy Hz) as (z' & Hz' & Hsz & Hez).
  exists z, z'. split; [reflexivity |]. split; [exact Hz' |].
  split; [exact Hszx |]. split; [exact Hez |].
  intros [q Hq] idx Hidx. rewrite Hez.
  unfold roll in Hz'. rewrite Hn in Hz'. injection Hz' as <-. cbn [entry].
  rewrite (alter_fixed _ _ idx (shape x) n Hidx Hn); [reflexivity |].
  intros j Hj. rewrite Hq.
  replace (Z.of_nat j - q * Z.of_nat n) with (Z.of_nat j + (- q) * Z.of_nat n) by lia.
  rewrite Z_mod_plus_full. rewrite Z.mod_small by lia. apply Nat2Z.id.
Qed.

Lemma rfft_shift_twice_witness :
  let x := integers [1; 1; 2; 2]%nat [0; 1; 2; 3] in
  exists z z',
    (shifted ← rfft_shift conv2d x; rfft_shift conv2d shifted) = Ok z /\
    roll x (2 * (- 2 / 2)) (length (modes conv2d)) = Ok z' /\
    shape z = shape x /\
    (forall idx, entry z idx = entry z' idx) /\
    ((Z.of_nat 2 | 2 * (- 2 / 2)) ->
     forall idx, Forall2 lt idx (shape x) -> entry z idx = entry x idx).
Proof.
  intros x.
  exact (rfft_shift_twice conv2d x 2 [2] 2 eq_refl eq_refl eq_refl).
Defined.

(** ** Truncation and zero padding *)

Lemma spatial_pads_transformed (modes exts : list Z) :
  length modes = length exts ->
  spatial_pads modes exts
  = zip_with (fun m f => (0, f - m)) modes (transformed_extents exts).
Proof.
  revert exts. induction modes as [|m ms IH]; intros exts Hlen.
  - destruct exts; reflexivity.
  - destruct exts as [|s ss]; [discriminate |]. injection Hlen as Hlen.
    destruct ms as [|m' ms'].
    + destruct ss; [reflexivity | discriminate].
    + destruct ss as [|s' ss']; [discriminate |].
      change (spatial_pads (m :: m' :: ms') (s :: s' :: ss'))
        with ((0, s - m) :: spatial_pads (m' :: ms') (s' :: ss')).
      change (transformed_extents (s :: s' :: ss'))
        with (s :: transformed_extents (s' :: ss')).
      rewrite (IH (s' :: ss') Hlen). reflexivity.
Qed.

Lemma transformed_extents_length (exts : list Z) :
  length (transformed_extents exts) = length exts.
Proof.
  induction exts as [|s [|s' ss] IH]; [reflexivity | reflexivity |].
  change (transformed_extents (s :: s' :: ss)) with (s :: transformed_extents (s' :: ss)).
  simpl length in *. rewrite IH. reflexivity.
Qed.

(** Modes that fit: positive, and no pad width negative. *)
Lemma modes_fit (ms fs : list Z) :
  length ms = length fs ->
  Forall (fun m => 0 < m) ms ->
  Forall (fun p => 0 <= p.2) (zip_with (fun m f => (0, f - m)) ms fs) ->
  Forall2 (fun m f => 0 < m <= f) ms fs.
Proof.
  revert fs. induction ms as [|m ms IH]; intros fs Hlen Hpos Hpads.
  - destruct fs; [constructor | discriminate].
  - destruct fs as [|f fs]; [discriminate |]. injection Hlen as Hlen.
    inversion Hpos; subst. simpl in Hpads. inversion Hpads; subst. simpl in *.
    constructor; [lia |]. apply IH; assumption.
Qed.

Lemma truncated_extents (ms fs : list Z) :
  Forall2 (fun m f => 0 < m <= f) ms fs ->
  zip_with slice_len (map Z.to_nat fs) (map Some ms) = map Z.to_nat ms.
Proof.
  induction 1 as [|m f ms' fs' Hmf _ IH]; simpl; [reflexivity |].
  rewrite IH. f_equal. unfold slice_len.
  replace (m <? 0) with false by (symmetry; apply Z.ltb_ge; lia).
  rewrite Z2Nat.id by lia. rewrite Z.min_l by lia. reflexivity.
Qed.

Lemma padded_extents (ms fs : list Z) :
  Forall2 (fun m f => 0 < m <= f) ms fs ->
  zip_with (fun n p => (Z.to_nat p.1 + n + Z.to_nat p.2)%nat) (map Z.to_nat ms)
    (zip_with (fun m f => (0, f - m)) ms fs)
  = map Z.to_nat fs.
Proof.
  induction 1 as [|m f ms' fs' Hmf _ IH]; simpl; [reflexivity |].
  rewrite IH. f_equal. lia.
Qed.

Lemma pads_not_negative (ms fs : list Z) :
  Forall2 (fun m f => 0 < m <= f) ms fs ->
  existsb (fun p => (p.1 <? 0) || (p.2 <? 0)) (zip_with (fun m f => (0, f - m)) ms fs) = false.
Proof.
  induction 1 as [|m f ms' fs' Hmf _ IH]; simpl; [reflexivity |].
  rewrite IH. replace (f - m <? 0) with false by (symmetry; apply Z.ltb_ge; lia).
  reflexivity.
Qed.

Lemma window_test (ms fs : list Z) (ks : list nat) :
  Forall2 (fun m f => 0 < m <= f) ms fs ->
  forallb (fun q => (Z.to_nat q.2.2.1 <=? q.1)%nat && (q.1 <? Z.to_nat q.2.2.1 + q.2.1)%nat)
    (zip ks (zip (map Z.to_nat ms) (zip_with (fun m f => (0, f - m)) ms fs)))
  = forallb (fun km => (km.1 <? km.2)%nat) (zip ks (map Z.to_nat ms)).
Proof.
  intros Hfit. revert ks. induction Hfit as [|m f ms' fs' Hmf _ IH]; intros ks.
  - destruct ks; reflexivity.
  - destruct ks as [|k ks]; [reflexivity |]. simpl. rewrite IH. reflexivity.
Qed.

Lemma unpadded_index (ms fs : list Z) (ks : list nat) :
  Forall2 (fun m f => 0 < m <= f) ms fs ->
  length ks = length ms ->
  zip_with (fun i p => (i - Z.to_nat p.1)%nat) ks (zip_with (fun m f => (0, f - m)) ms fs) = ks.
Proof.
  intros Hfit. revert ks. induction Hfit as [|m f ms' fs' Hmf _ IH]; intros ks Hlen.
  - destruct ks; [reflexivity | discriminate].
  - destruct ks as [|k ks]; [discriminate |]. injection Hlen as Hlen. simpl.
    rewrite IH by exact Hlen. f_equal. lia.
Qed.

(** X11: for a layer the constructor returns, built on [(batch, *exts,
    channels)], and a transformed tensor of shape [(b, c, *extents)] with
    the extents the transforms give for [exts]: the truncation keeps the
    leading [modes[i]] entries of every transformed axis, giving shape
    [(b, c, *modes)]; padding the truncated tensor with the stored plan
    restores the shape of the transformed tensor, with the entries of the
    transformed tensor inside the mode window and zero outside. *)
Theorem truncate_then_pad {T : Type} `{Scalar T} (g : Keras.state) (a : init_args)
    (self : BaseSpectralConv) (g' : Keras.state)
    (batch : option Z) (exts : list Z) (channels : Z) (st : build_state)
    (x_hat : tensor T) (b c : nat) :
  __init__ g a = Ok (self, g') ->
  length exts = rank self ->
  build self None (batch :: map Some exts ++ [Some channels]) = Ok st ->
  shape x_hat = b :: c :: map Z.to_nat (transformed_extents exts) ->
  exists t p,
    getitem x_hat (mode_truncation_slice st) = Ok t /\
    shape t = b :: c :: map Z.to_nat (modes self) /\
    pad t (pad_width st) = Ok p /\
    shape p = shape x_hat /\
    forall i o ks, (i < b)%nat -> (o < c)%nat -> length ks = length exts ->
      entry p (i :: o :: ks)
      = if forallb (fun km => (km.1 <? km.2)%nat) (zip ks (map Z.to_nat (modes self)))
        then entry x_hat (i :: o :: ks) else szero.
Proof.
  intros Hinit Hexts Hbuild Hshape.
  apply init_ok_inv in Hinit as (Hms & Hrank & _ & _ & _ & Hfmt).
  apply standardize_tuple_ok in Hms as (_ & Hlen & Hpos).
  assert (length (modes self) = length exts) as Hlen' by congruence.
  rewrite (build_channels_last self batch exts channels Hfmt Hlen') in Hbuild.
  destruct (bool_decide (List.filter (fun x => tuple_lt x (0, 0))
                           (spec_padding_plan (modes self) exts) = [])) eqn:Hdec;
    [| discriminate].
  apply bool_decide_eq_true in Hdec.
  apply (negative_pad_filter _ (plan_low _ _)) in Hdec.
  simpl negb in Hbuild. cbv iota zeta in Hbuild.
  apply bind_ok in Hbuild as (rk & _ & Hbuild).
  apply bind_ok in Hbuild as (ik & _ & Hbuild).
  apply bind_ok in Hbuild as (bs & _ & Hbuild).
  injection Hbuild as <-.
  unfold built_state. cbn [mode_truncation_slice pad_width].
  unfold spec_padding_plan in *. rewrite (spatial_pads_transformed _ _ Hlen') in *.
  inversion Hdec as [|? ? _ Hdec']; subst. inversion Hdec' as [|? ? _ Hpads]; subst.
  assert (length (modes self) = length (transformed_extents exts)) as Hlenf
    by (rewrite transformed_extents_length; exact Hlen').
  pose proof (modes_fit _ _ Hlenf Hpos Hpads) as Hfit.
  assert (length (map Some (modes self)) = length (modes self)) as E1 by apply length_map.
  assert (length (map Z.to_nat (transformed_extents exts)) = length (modes self)) as E2
    by (rewrite length_map; symmetry; exact Hlenf).
  unfold getitem, ndim. rewrite Hshape. cbn [length]. rewrite E1, E2, Nat.leb_refl.
  eexists. eexists. split; [reflexivity |].
  cbn [shape take zip_with drop app].
  rewrite take_ge by lia. rewrite drop_ge by lia. rewrite app_nil_r.
  rewrite (truncated_extents _ _ Hfit).
  split; [reflexivity |].
  unfold pad, ndim. cbn [shape length].
  rewrite length_zip_with, length_map, <- Hlenf, Nat.min_id.
  rewrite bool_decide_eq_true_2 by reflexivity. cbn [negb existsb fst snd].
  change (0 <? 0) with false. cbn [orb].
  rewrite (pads_not_negative _ _ Hfit).
  split; [reflexivity |]. cbn [shape zip_with fst snd]. split.
  { rewrite (padded_extents _ _ Hfit). cbn [slice_len]. change (Z.to_nat 0) with 0%nat.
    rewrite !Nat.add_0_r. reflexivity. }
  intros i o ks Hi Ho Hks. cbn [entry zip forallb zip_with fst snd slice_len].
  change (Z.to_nat 0) with 0%nat. cbn [Nat.leb Nat.add andb].
  rewrite !Nat.sub_0_r.
  replace (i <? b)%nat with true by (symmetry; apply Nat.ltb_lt; exact Hi).
  replace (o <? c)%nat with true by (symmetry; apply Nat.ltb_lt; exact Ho).
  cbn [andb].
  rewrite (window_test _ _ ks Hfit).
  rewrite (unpadded_index _ _ ks Hfit) by congruence.
  reflexivity.
Qed.

Lemma truncate_then_pad_witness :
  exists t p,
    getitem (integers [1; 1; 3]%nat [3; 1; -1]) (mode_truncation_slice conv1d_state) = Ok t /\
    shape t = [1; 1; 2]%nat /\
    pad t (pad_width conv1d_state) = Ok p /\
    shape p = [1; 1; 3]%nat /\
    forall i o ks, (i < 1)%nat -> (o < 1)%nat -> length ks = 1%nat ->
      entry p (i :: o :: ks)
      = if forallb (fun km => (km.1 <? km.2)%nat) (zip ks [2%nat])
        then entry (integers [1; 1; 3]%nat [3; 1; -1]) (i :: o :: ks) else 0%Q.
Proof.
  exact (truncate_then_pad Keras.initial (default_args 1 (Some 1) (ModesSeq [2])) conv1d
           named_once (Some 1) [4] 1
           conv1d_state (integers [1; 1; 3]%nat [3; 1; -1]) 1 1
           eq_refl eq_refl eq_refl eq_refl).
Defined.

(** ** Configurations *)















(** ** The contraction of the forward pass *)

Lemma singleton_of_nodup {A} (l : list A) (a : A) :
  NoDup l -> (forall x, x ∈ l <-> x = a) -> l = [a].
Proof.
  intros Hnd Hall. destruct l as [|x l].
  - exfalso. pose proof (proj2 (Hall a) eq_refl) as Hin. inversion Hin.
  - assert (x = a) as -> by (apply Hall; apply elem_of_cons; left; reflexivity).
    f_equal. destruct l as [|y l]; [reflexivity |]. exfalso.
    assert (y = a) as ->
      by (apply Hall; apply elem_of_cons; right; apply elem_of_cons; left; reflexivity).
    inversion Hnd as [|? ? Hnin _]; subst. apply Hnin. apply elem_of_cons. left. reflexivity.
Qed.

Lemma summed_single (L : env) (out : list ascii) (c : ascii) (n : nat) :
  (c, n) ∈ L -> c ∉ out ->
  (forall p, p ∈ L -> p.1 ∉ out -> p = (c, n)) ->
  filter (fun p => p.1 ∉ out) (remove_dups L) = [(c, n)].
Proof.
  intros Hin Hout Hall. apply singleton_of_nodup.
  - apply NoDup_filter, NoDup_remove_dups.
  - intros p. rewrite list_elem_of_filter, elem_of_remove_dups. split.
    + intros [Hp HL]. apply Hall; assumption.
    + intros ->. split; assumption.
Qed.

Lemma flat_map_singleton {A B} (g : A -> B) (l : list A) :
  flat_map (fun v => [g v]) l = map g l.
Proof. induction l as [|a l IH]; simpl; [reflexivity | rewrite IH; reflexivity]. Qed.

Lemma assignments_single (c : ascii) (n : nat) :
  assignments [(c, n)] = map (fun i => [(c, i)]) (seq 0 n).
Proof. simpl. apply (flat_map_singleton (fun i => [(c, i)])). Qed.

Lemma broadcast_rev_same (l : list nat) : broadcast_rev l l = Some l.
Proof.
  induction l as [|x l IH]; simpl; [reflexivity |].
  rewrite IH, Nat.eqb_refl. reflexivity.
Qed.

Lemma broadcast_shapes_same (sh : list nat) : broadcast_shapes sh sh = Some sh.
Proof. unfold broadcast_shapes. rewrite broadcast_rev_same, rev_involutive. reflexivity. Qed.

Lemma build_einsum_op_forward (self : BaseSpectralConv) (input_shape : list (option Z))
    (st : build_state) :
  build self None input_shape = Ok st ->
  einsum_op_forward st
  = "bi" +:+ einsum_dim (modes self) +:+ ",io" +:+ einsum_dim (modes self)
         +:+ "->bo" +:+ einsum_dim (modes self).
Proof.
  unfold build. intros Hbuild.
  apply bind_ok in Hbuild as ([[channel_axis input_channel] axes_tr] & _ & Hbuild).
  apply bind_ok in Hbuild as (pads & _ & Hbuild).
  destruct (negb _); [discriminate |].
  apply bind_ok in Hbuild as (rk & _ & Hbuild).
  apply bind_ok in Hbuild as (ik & _ & Hbuild).
  apply bind_ok in Hbuild as (b & _ & Hbuild).
  destruct axes_tr as [[[axes ta] ita]|]; [| discriminate].
  apply bind_ok in Hbuild as ([? fa] & _ & Hbuild).
  apply bind_ok in Hbuild as ([? fa'] & _ & Hbuild).
  injection Hbuild as <-. reflexivity.
Qed.

(** The contraction [build] writes for a layer with at most three modes, on
    an operand of shape [(B, I, *M)] and a kernel of shape [(I, O, *M)]:
    the sum over the input channel, mode by mode. *)
Lemma einsum_forward_contracts {T : Type} `{Scalar T} (ms : list Z) (x k : tensor T)
    (B I O : nat) (M : list nat) :
  (length ms <= 3)%nat -> length M = length ms ->
  shape x = B :: I :: M -> shape k = I :: O :: M ->
  exists y,
    einsum Tensorflow
      ("bi" +:+ einsum_dim ms +:+ ",io" +:+ einsum_dim ms +:+ "->bo" +:+ einsum_dim ms)
      [x; k] = Ok y /\
    shape y = B :: O :: M /\
    forall b o ks, length ks = length M ->
      entry y (b :: o :: ks)
      = Tensor.sum (map (fun i => smul (entry x (b :: i :: ks)) (entry k (i :: o :: ks)))
                      (seq 0 I)).
Proof.
  intros Hms HM Hx Hk.
  destruct ms as [|m1 [|m2 [|m3 [|m4 ms]]]]; simpl in Hms; try lia;
    destruct M as [|M1 [|M2 [|M3 [|M4 M]]]]; try discriminate HM;
    unfold einsum;
    match goal with |- context [parse_subscripts ?s] =>
      let v := eval cbv in (parse_subscripts s) in change (parse_subscripts s) with v end;
    cbv iota beta zeta;
    unfold ndim;
    cbn [zip zip_with fst snd length forallb]; rewrite Hx, Hk;
    cbn [length];
    rewrite !bool_decide_eq_true_2 by reflexivity;
    cbn [andb negb];
    match goal with |- context [consistent ?s] =>
      assert (consistent s = true) as ->
        by (unfold consistent, label_sizes;
            cbn [zip zip_with flat_map fst snd app]; rewrite Hx, Hk;
            cbn [zip zip_with flat_map fst snd app forallb];
            repeat match goal with |- context [lookup_label ?e ?c] =>
              let v := eval cbv in (lookup_label e c) in change (lookup_label e c) with v end;
            rewrite !bool_decide_eq_true_2 by reflexivity; reflexivity) end;
    cbn [mbind result_bind];
    unfold label_sizes;
    cbn [zip zip_with flat_map fst snd app map forallb]; rewrite Hx, Hk;
    cbn [zip zip_with flat_map fst snd app map forallb];
    repeat match goal with |- context [lookup_label ?e ?c] =>
      let v := eval cbv in (lookup_label e c) in change (lookup_label e c) with v end;
    rewrite !bool_decide_eq_true_2 by (eexists; reflexivity);
    cbn [andb negb];
    (eexists; split; [reflexivity |]; split; [reflexivity |]);
    intros b o ks Hks;
    destruct ks as [|k1 [|k2 [|k3 [|k4 ks]]]]; try discriminate Hks;
    cbn [entry];
    (rewrite (summed_single _ _ "i"%char I);
     [ rewrite assignments_single, map_map; reflexivity
     | apply list_elem_of_In; simpl; tauto
     | intros Hin; apply list_elem_of_In in Hin; simpl in Hin; intuition discriminate
     | intros p Hp Hout; apply list_elem_of_In in Hp; simpl in Hp;
       repeat (destruct Hp as [<- | Hp];
               [first [reflexivity
                      | exfalso; apply Hout; apply list_elem_of_In; simpl; tauto] |]);
       contradiction ]).
Qed.

(** X14: for a built layer with at most three modes, truncated spectra of
    shape [(B, I, *M)] and kernels of shape [(I, O, *M)], the mixing of the
    forward pass returns, in the tensorflow and in the jax branch alike, a
    tensor of shape [(B, O, *M)]; at every index
    [(b, o, *ks)] inside that shape its entry is the sum over the input
    channel [i] of [x_real[b, i, *ks] * real_kernel[i, o, *ks]] minus the
    sum over [i] of [x_imag[b, i, *ks] * imag_kernel[i, o, *ks]]: the modes
    are not mixed with each other. *)
Theorem mixing_contracts_input_channels {T : Type} `{Scalar T} (self : BaseSpectralConv)
    (input_shape : list (option Z)) (st : build_state) (w : weights T)
    (x_real x_imag : tensor T) (B I O : nat) (M : list nat) :
  build self None input_shape = Ok st ->
  (length (modes self) <= 3)%nat ->
  length M = length (modes self) ->
  shape x_real = B :: I :: M ->
  shape x_imag = B :: I :: M ->
  shape (_real_kernel w) = I :: O :: M ->
  shape (_imag_kernel w) = I :: O :: M ->
  exists y,
    tf_y_hat_real_truncated st w x_real x_imag = Ok y /\
    jax_y_hat_real_truncated st w x_real x_imag = Ok y /\
    shape y = B :: O :: M /\
    forall b o ks, (b < B)%nat -> (o < O)%nat -> Forall2 lt ks M ->
      entry y (b :: o :: ks)
      = ssub (Tensor.sum (map (fun i => smul (entry x_real (b :: i :: ks))
                                          (entry (_real_kernel w) (i :: o :: ks)))
                            (seq 0 I)))
             (Tensor.sum (map (fun i => smul (entry x_imag (b :: i :: ks))
                                          (entry (_imag_kernel w) (i :: o :: ks)))
                            (seq 0 I))).
Proof.
  intros Hbuild Hms HM Hxr Hxi Hwr Hwi.
  cut (exists y,
         tf_y_hat_real_truncated st w x_real x_imag = Ok y /\
         shape y = B :: O :: M /\
         forall b o ks, (b < B)%nat -> (o < O)%nat -> Forall2 lt ks M ->
           entry y (b :: o :: ks)
           = ssub (Tensor.sum (map (fun i => smul (entry x_real (b :: i :: ks))
                                               (entry (_real_kernel w) (i :: o :: ks)))
                                 (seq 0 I)))
                  (Tensor.sum (map (fun i => smul (entry x_imag (b :: i :: ks))
                                               (entry (_imag_kernel w) (i :: o :: ks)))
                                 (seq 0 I)))).
  { intros (y & Htf & Hshape & Hentry). exists y. split; [exact Htf |].
    split; [exact (mixing_jax_extends _ _ _ _ _ Htf) |]. split; assumption. }
  unfold tf_y_hat_real_truncated. rewrite (build_einsum_op_forward _ _ _ Hbuild).
  destruct (einsum_forward_contracts (modes self) x_real (_real_kernel w) B I O M
              Hms HM Hxr Hwr) as (yr & -> & Hyr & Hr).
  destruct (einsum_forward_contracts (modes self) x_imag (_imag_kernel w) B I O M
              Hms HM Hxi Hwi) as (yi & -> & Hyi & Hi).
  cbn [mbind result_bind]. unfold sub, binop.
  rewrite Hyr, Hyi, broadcast_shapes_same.
  eexists. split; [reflexivity |]. split; [reflexivity |].
  intros b o ks Hb Ho Hks. cbn [entry].
  assert (Forall2 lt (b :: o :: ks) (B :: O :: M)) as Hidx
    by (constructor; [exact Hb |]; constructor; [exact Ho | exact Hks]).
  rewrite (bcast_index_self _ _ Hidx).
  rewrite Hr, Hi by exact (Forall2_length _ _ _ Hks). reflexivity.
Qed.

Lemma mixing_contracts_input_channels_witness :
  let w := {| _real_kernel := integers [3; 1; 2]%nat [1; 2; 3; 4; 5; 6];
              _imag_kernel := integers [3; 1; 2]%nat [6; 5; 4; 3; 2; 1];
              bias := Some bias1 |} in
  let x_real := integers [1; 3; 2]%nat [1; 0; 2; 1; 0; 3] in
  let x_imag := integers [1; 3; 2]%nat [0; 1; 1; 1; 2; 0] in
  exists y,
    tf_y_hat_real_truncated conv1d_state3 w x_real x_imag = Ok y /\
    jax_y_hat_real_truncated conv1d_state3 w x_real x_imag = Ok y /\
    shape y = [1; 1; 2]%nat /\
    forall b o ks, (b < 1)%nat -> (o < 1)%nat -> Forall2 lt ks [2%nat] ->
      entry y (b :: o :: ks)
      = ssub (Tensor.sum (map (fun i => smul (entry x_real (b :: i :: ks))
                                          (entry (_real_kernel w) (i :: o :: ks)))
                            (seq 0 3)))
             (Tensor.sum (map (fun i => smul (entry x_imag (b :: i :: ks))
                                          (entry (_imag_kernel w) (i :: o :: ks)))
                            (seq 0 3))).
Proof.
  intros w x_real x_imag.
  apply (mixing_contracts_input_channels conv1d [Some 1; Some 4; Some 3] conv1d_state3 w
           x_real x_imag 1 3 1 [2%nat]); try reflexivity.
  simpl. lia.
Defined.
